(** * Barber Booking API: appointment scheduling, cancellation and privacy masking

    A shallow embedding of [main.py] and [schemas.py].

    - A Python [str] is the sequence of its code points; the embedding uses
      [string], whose characters enumerate the code points below 256.
    - An instant is a [Z]: the number of milliseconds since the epoch, which is
      the resolution at which the document store holds and compares dates.
      A request's start is read as a naive [datetime], which the store takes
      as UTC: its clock reading and its instant are the same number.
      [timedelta(minutes=n)] is [n * 60000].  Python integers are unbounded,
      so [duration_min] is a [Z].  [datetime] and [timedelta] are bounded:
      [Datetime] holds their limits, and [Endpoint] the two handlers that
      add a duration to a start, with the [OverflowError] of that addition.
      [Main.check_availability] and [Main.create_appointment] are those
      handlers from the query on, for an [end] that the addition gave.
    - The [appointment] collection is the list of its documents in insertion
      order.  Request handlers take the collection (and what the environment
      supplies: the clock reading, the identity the driver generates) and
      return their outcome together with the collection afterwards. *)

From Stdlib Require Import ZArith NArith List String Ascii Bool Lia Floats.
Import ListNotations.

Open Scope string_scope.
Open Scope Z_scope.

(** ** Python string primitives used by the masking helpers *)

Module Py.

Definition code (c : ascii) : N := N_of_ascii c.

Definition between (lo hi : N) (c : ascii) : bool :=
  ((lo <=? code c) && (code c <=? hi))%N.

(** [str.isspace] on one character. *)
Definition isspace (c : ascii) : bool :=
  between 9 13 c || between 28 32 c || between 133 133 c || between 160 160 c.

(** [str.isdigit] on one character. *)
Definition isdigit (c : ascii) : bool :=
  between 48 57 c || between 178 179 c || between 185 185 c.

(** [str.isalpha] on one character. *)
Definition isalpha (c : ascii) : bool :=
  between 65 90 c || between 97 122 c || between 170 170 c
  || between 181 181 c || between 186 186 c || between 192 214 c
  || between 216 246 c || between 248 255 c.

Fixpoint lstrip (s : string) : string :=
  match s with
  | EmptyString => EmptyString
  | String c t => if isspace c then lstrip t else s
  end.

Fixpoint rstrip (s : string) : string :=
  match s with
  | EmptyString => EmptyString
  | String c t =>
      match rstrip t with
      | EmptyString => if isspace c then EmptyString else String c EmptyString
      | r => String c r
      end
  end.

(** [s.strip()] *)
Definition strip (s : string) : string := rstrip (lstrip s).

(** Splitting at every character that [sep] accepts, empty pieces kept. *)
Fixpoint split_by (sep : ascii -> bool) (s : string) : list string :=
  match s with
  | EmptyString => [EmptyString]
  | String c t =>
      if sep c then EmptyString :: split_by sep t
      else match split_by sep t with
           | [] => [String c EmptyString]
           | p :: ps => String c p :: ps
           end
  end.

(** [s.split(" ")] *)
Definition split_space (s : string) : list string :=
  split_by (Ascii.eqb " ") s.

(** Truthiness of a string: [if p]. *)
Definition truthy (p : string) : bool :=
  match p with EmptyString => false | String _ _ => true end.

(** [s.split()]: maximal runs of characters that are not whitespace. *)
Definition split_whitespace (s : string) : list string :=
  filter truthy (split_by isspace s).

Definition len (s : string) : Z := Z.of_nat (String.length s).

(** [sep.join(parts)] *)
Definition join (sep : string) (parts : list string) : string :=
  String.concat sep parts.

End Py.

(** ** Object identities ([bson.ObjectId]) *)

Module Bson.

(** Twelve bytes, held as the number they spell. *)
Definition oid := N.

Definition hex_value (c : ascii) : option N :=
  if Py.between 48 57 c then Some (Py.code c - 48)%N
  else if Py.between 97 102 c then Some (Py.code c - 87)%N
  else if Py.between 65 70 c then Some (Py.code c - 55)%N
  else None.

Fixpoint parse_hex (s : string) (acc : N) : option N :=
  match s with
  | EmptyString => Some acc
  | String c t =>
      match hex_value c with
      | Some v => parse_hex t (16 * acc + v)%N
      | None => None
      end
  end.

(** [Py_ISSPACE]: the ASCII whitespace that [bytes.fromhex] skips. *)
Definition is_ascii_space (c : ascii) : bool :=
  Py.between 9 13 c || Py.between 32 32 c.

(** [bytes.fromhex(text)]: pairs of hexadecimal digits, with any ASCII
    whitespace before a pair or after the last one skipped; [None] stands
    for its [ValueError] (a character that is no digit, a pair cut short or
    split by whitespace). *)
Fixpoint fromhex (s : string) : option (list N) :=
  match s with
  | EmptyString => Some []
  | String c t =>
      if is_ascii_space c then fromhex t
      else
        match t with
        | EmptyString => None
        | String c2 t2 =>
            match hex_value c, hex_value c2 with
            | Some top, Some bot =>
                match fromhex t2 with
                | Some bytes => Some ((16 * top + bot)%N :: bytes)
                | None => None
                end
            | _, _ => None
            end
        end
  end.

Definition bytes_value (bytes : list N) : N :=
  fold_left (fun acc b => (256 * acc + b)%N) bytes 0%N.

(** The identity that holds [bytes].  Twelve bytes are held as the number
    they spell, below [256 ^ 12].  [ObjectId] does not check how many bytes
    [bytes.fromhex] gave it, so text with whitespace in it leaves fewer than
    twelve; such a value is held above [256 ^ 12], tagged with its length,
    and so differs from every twelve-byte identity. *)
Definition of_bytes (bytes : list N) : oid :=
  if (List.length bytes =? 12)%nat then bytes_value bytes
  else (256 ^ 12 * (1 + N.of_nat (List.length bytes)) + bytes_value bytes)%N.

(** [ObjectId(text)]: [len(text) == 24] and [bytes.fromhex(text)] succeeds,
    or [InvalidId] (here [None]). *)
Definition ObjectId (text : string) : option oid :=
  if (String.length text =? 24)%nat then option_map of_bytes (fromhex text)
  else None.

Definition hex_digit (v : N) : ascii :=
  if (v <? 10)%N then ascii_of_N (48 + v) else ascii_of_N (87 + v).

Fixpoint hex_of (k : nat) (n : N) : string :=
  match k with
  | O => EmptyString
  | S k' => hex_of k' (n / 16)%N ++ String (hex_digit (n mod 16)%N) EmptyString
  end.

(** [str(oid)] *)
Definition str (o : oid) : string := hex_of 24 o.

End Bson.

(** ** Schemas *)

(** Request body of [POST /api/appointments] ([main.AppointmentIn]).  The
    framework builds it from the request; every field is typed, none is
    bounded. *)
Module AppointmentIn.
Record t := mk {
  customer_name : string;
  customer_phone : string;
  barber_id : string;
  service_name : string;
  start_time : Z;
  duration_min : Z;
  notes : option string
}.
End AppointmentIn.

(** Fields of a stored appointment ([schemas.Appointment]), with the
    [updated_at] key that cancellation adds ([None] while the key is absent). *)
Module Appointment.
Record t := mk {
  customer_name : string;
  customer_phone : string;
  barber_id : string;
  service_name : string;
  start_time : Z;
  end_time : Z;
  duration_min : Z;
  notes : option string;
  status : string;
  updated_at : option Z
}.

(** [duration_min: int = Field(..., ge=5, le=240)] *)
Definition duration_in_bounds (d : Z) : bool := (5 <=? d) && (d <=? 240).
End Appointment.

(** ** The document store *)

Module Store.

Record document := mkdoc {
  _id : Bson.oid;
  fields : Appointment.t
}.

Definition collection := list document.

(** [collection.find_one(filter)]: the first document the filter accepts. *)
Definition find_one (q : document -> bool) (c : collection) : option document :=
  List.find q c.

Definition by_id (o : Bson.oid) (d : document) : bool := (_id d =? o)%N.

(** [collection.insert_one(data)] with the identity the driver generated;
    [None] is [DuplicateKeyError] (identities are unique in a collection). *)
Definition insert_one (new_id : Bson.oid) (data : Appointment.t) (c : collection)
  : option collection :=
  if existsb (by_id new_id) c then None
  else Some (c ++ [mkdoc new_id data])%list.

(** One assignment of a [$set] update. *)
Inductive assignment :=
| SetStatus (s : string)
| SetUpdatedAt (t : Z).

Definition assign (a : Appointment.t) (u : assignment) : Appointment.t :=
  match u with
  | SetStatus s =>
      Appointment.mk (Appointment.customer_name a) (Appointment.customer_phone a)
        (Appointment.barber_id a) (Appointment.service_name a)
        (Appointment.start_time a) (Appointment.end_time a)
        (Appointment.duration_min a) (Appointment.notes a)
        s (Appointment.updated_at a)
  | SetUpdatedAt t =>
      Appointment.mk (Appointment.customer_name a) (Appointment.customer_phone a)
        (Appointment.barber_id a) (Appointment.service_name a)
        (Appointment.start_time a) (Appointment.end_time a)
        (Appointment.duration_min a) (Appointment.notes a)
        (Appointment.status a) (Some t)
  end.

(** Does the document already hold the assigned value? *)
Definition holds (a : Appointment.t) (u : assignment) : bool :=
  match u with
  | SetStatus s => (Appointment.status a =? s)%string
  | SetUpdatedAt t =>
      match Appointment.updated_at a with
      | Some t' => (t' =? t)%Z
      | None => false
      end
  end.

Record UpdateResult := mkres {
  matched_count : Z;
  modified_count : Z
}.

(** [collection.update_one(filter, {"$set": sets})]: the first document the
    filter accepts receives the assignments; it counts as modified only when
    an assignment changes a value. *)
Fixpoint update_one (q : document -> bool) (sets : list assignment) (c : collection)
  : UpdateResult * collection :=
  match c with
  | [] => (mkres 0 0, [])
  | d :: rest =>
      if q d then
        if forallb (holds (fields d)) sets then (mkres 1 0, d :: rest)
        else (mkres 1 1, mkdoc (_id d) (fold_left assign sets (fields d)) :: rest)
      else
        let (r, rest') := update_one q sets rest in (r, d :: rest')
  end.

(** Modelled from the spec: [database.create_document], which is not among
    the sources.  The store adapter's [create(collection, document) -> id]
    persists the document as given and returns its new identity as text. *)
Definition create_document (new_id : Bson.oid) (data : Appointment.t) (c : collection)
  : option (string * collection) :=
  match insert_one new_id data c with
  | Some c' => Some (Bson.str new_id, c')
  | None => None
  end.

End Store.

(** ** Privacy helpers ([main.py], "Privacy helpers") *)

Module Masking.

(** [parts = [p for p in name.strip().split(" ") if p]] *)
Definition name_parts (name : string) : list string :=
  filter Py.truthy (Py.split_space (Py.strip name)).

(** One turn of the loop over [parts]; [p[0]] raises [IndexError] on an
    empty [p], which is [None] here. *)
Definition mask_step (masked_parts : option (list string)) (p : string)
  : option (list string) :=
  match masked_parts with
  | None => None
  | Some acc =>
      match String.get 0 p with
      | None => None
      | Some c =>
          if Py.len p <=? 2
          then Some (acc ++ [String c "*"])%list
          else Some (acc ++ [String c "***"])%list
      end
  end.

(** The body of the [try] block; [None] when it raises. *)
Definition mask_name_try (name : string) : option string :=
  let parts := name_parts name in
  match parts with
  | [] => Some "Customer"
  | _ =>
      match fold_left mask_step parts (Some []) with
      | Some masked_parts => Some (Py.join " " masked_parts)
      | None => None
      end
  end.

Definition mask_name (name : string) : string :=
  match mask_name_try name with
  | Some masked => masked
  | None => "Customer"
  end.

(** [digits[-4:]] *)
Definition last4_of (digits : list ascii) : list ascii :=
  skipn (List.length digits - 4) digits.

Definition mask_phone (phone : string) : string :=
  let digits := filter Py.isdigit (list_ascii_of_string phone) in
  if Z.of_nat (List.length digits) <? 4 then "***"
  else
    let last4 := string_of_list_ascii (last4_of digits) in
    "***-***-" ++ last4.

End Masking.

(** ** Request handlers ([main.py], "Appointment endpoints") *)

Inductive exception :=
| HTTPException (status_code : Z) (detail : string)
| InvalidId
| DuplicateKeyError
| OverflowError.

Inductive outcome (A : Type) :=
| Return (a : A)
| Raise (e : exception).

Arguments Return {A} a.
Arguments Raise {A} e.

Module Main.

Import Store.

(** [timedelta(minutes=n)] *)
Definition minutes (n : Z) : Z := n * 60000.

(** What [serialize] makes of a document: [_id] gives way to its text
    under [id]. *)
Record Serialized := mkser {
  id : string;
  body : Appointment.t
}.

Definition serialize (doc : option document) : option Serialized :=
  match doc with
  | None => None
  | Some d => Some (mkser (Bson.str (_id d)) (fields d))
  end.

Record Availability := mkavail { available : bool }.

Definition is_None {A : Type} (x : option A) : bool :=
  match x with None => true | Some _ => false end.

(** The handler from its query on: [end] is the sum that
    [start + timedelta(minutes=duration_min)] gives when it is within the
    range of [datetime].  [Endpoint.check_availability] is the handler from
    its first line, where that addition can raise. *)
Definition check_availability (barber_id : string) (start_time : Z)
    (duration_min : Z) (db : collection) : Availability :=
  let start := start_time in
  let end_ := start + minutes duration_min in
  let conflict :=
    find_one (fun d =>
      (Appointment.barber_id (fields d) =? barber_id)%string
      && negb (Appointment.status (fields d) =? "canceled")%string
      && existsb (fun clause => clause)
           [ (Appointment.start_time (fields d) <? end_)
             && (Appointment.end_time (fields d) >? start) ]) db in
  mkavail (is_None conflict).

(** [new_id] is the identity the driver generates for the inserted document.
    A document that [find_one] returns carries [_id], so it is never an empty
    dict and [if conflict] holds exactly when a document was found.  As with
    [check_availability], this is the handler from its query on;
    [Endpoint.create_appointment] is the handler from its first line. *)
Definition create_appointment (body : AppointmentIn.t) (new_id : Bson.oid)
    (db : collection) : outcome (option Serialized) * collection :=
  let start := AppointmentIn.start_time body in
  let end_ := start + minutes (AppointmentIn.duration_min body) in
  let conflict :=
    find_one (fun d =>
      (Appointment.barber_id (fields d) =? AppointmentIn.barber_id body)%string
      && negb (Appointment.status (fields d) =? "canceled")%string
      && existsb (fun clause => clause)
           [ (Appointment.start_time (fields d) <? end_)
             && (Appointment.end_time (fields d) >? start) ]) db in
  match conflict with
  | Some _ => (Raise (HTTPException 400 "Time slot not available"), db)
  | None =>
      let data :=
        Appointment.mk (AppointmentIn.customer_name body)
          (AppointmentIn.customer_phone body) (AppointmentIn.barber_id body)
          (AppointmentIn.service_name body) (AppointmentIn.start_time body)
          end_ (AppointmentIn.duration_min body) (AppointmentIn.notes body)
          "booked" None in
      match create_document new_id data db with
      | None => (Raise DuplicateKeyError, db)
      | Some (_id, db') =>
          match Bson.ObjectId _id with
          | None => (Raise InvalidId, db')
          | Some oid => (Return (serialize (find_one (by_id oid) db')), db')
          end
      end
  end.

(** [now] is the reading of [datetime.utcnow()]. *)
Definition cancel_appointment (appointment_id : string) (now : Z)
    (db : collection) : outcome (option Serialized) * collection :=
  match Bson.ObjectId appointment_id with
  | None => (Raise InvalidId, db)
  | Some oid =>
      let (res, db') :=
        update_one (by_id oid) [SetStatus "canceled"; SetUpdatedAt now] db in
      if modified_count res =? 0
      then (Raise (HTTPException 404 "Appointment not found"), db')
      else (Return (serialize (find_one (by_id oid) db')), db')
  end.

(** Modelled from the spec: [database.get_documents], which is not among
    the sources.  The store adapter's [find_many(collection, filter)] yields
    the matching documents in storage order. *)
Definition get_documents (q : document -> bool) (db : collection) : list document :=
  filter q db.

Definition list_appointments (barber_id : option string) (db : collection)
  : list Serialized :=
  let q := match barber_id with
           | Some b =>
               if Py.truthy b
               then fun d => (Appointment.barber_id (fields d) =? b)%string
               else fun _ => true
           | None => fun _ => true
           end in
  map (fun d =>
         let a := fields d in
         mkser (Bson.str (_id d))
           (Appointment.mk (Masking.mask_name (Appointment.customer_name a))
              (Masking.mask_phone (Appointment.customer_phone a))
              (Appointment.barber_id a) (Appointment.service_name a)
              (Appointment.start_time a) (Appointment.end_time a)
              (Appointment.duration_min a) None
              (Appointment.status a) (Appointment.updated_at a)))
      (get_documents q db).

End Main.

(** ** The range of [datetime] and [timedelta] *)

Module Datetime.

(** [datetime.min] and [datetime.max] at the resolution of an instant:
    0001-01-01T00:00:00.000 and 9999-12-31T23:59:59.999, in milliseconds
    since the epoch.  A duration is a whole number of minutes, so a sum lies
    between the two exactly when its milliseconds do. *)
Definition min : Z := -62135596800000.
Definition max : Z := 253402300799999.

Definition representable (t : Z) : bool := (min <=? t) && (t <=? max).

(** [timedelta(minutes=n)], or [None] for its [OverflowError]: the days of a
    [timedelta] (the minutes divided by 1440, rounded down) are at most
    999999999 in magnitude. *)
Definition timedelta_minutes (n : Z) : option Z :=
  if Z.abs (n / 1440) <=? 999999999 then Some (Main.minutes n) else None.

(** [start + timedelta(minutes=n)], or [None] for the [OverflowError] of
    either the [timedelta] or the sum ("date value out of range"). *)
Definition add_minutes (start n : Z) : option Z :=
  match timedelta_minutes n with
  | None => None
  | Some delta =>
      let sum := start + delta in
      if representable sum then Some sum else None
  end.

End Datetime.

(** ** The two handlers that form [end], from their first line *)

Module Endpoint.

Import Store.

(** [check_availability]: [end = start + timedelta(minutes=duration_min)]
    comes first and can raise; the query follows. *)
Definition check_availability (barber_id : string) (start_time : Z)
    (duration_min : Z) (db : collection) : outcome Main.Availability :=
  let start := start_time in
  match Datetime.add_minutes start duration_min with
  | None => Raise OverflowError
  | Some _ => Return (Main.check_availability barber_id start_time duration_min db)
  end.

(** [create_appointment]: the same addition comes before the query and the
    insertion, so when it raises nothing has been written. *)
Definition create_appointment (body : AppointmentIn.t) (new_id : Bson.oid)
    (db : collection) : outcome (option Main.Serialized) * collection :=
  let start := AppointmentIn.start_time body in
  match Datetime.add_minutes start (AppointmentIn.duration_min body) with
  | None => (Raise OverflowError, db)
  | Some _ => Main.create_appointment body new_id db
  end.

End Endpoint.

(** ** The specification's wording, for comparison with the code *)

Module Wording.

Import Store.

(** "no stored appointment for that barber with status != canceled satisfies
    start_time < end AND end_time > start" *)
Definition conflicts (barber_id : string) (start end_ : Z) (d : document) : Prop :=
  Appointment.barber_id (fields d) = barber_id
  /\ Appointment.status (fields d) <> "canceled"
  /\ Appointment.start_time (fields d) < end_
  /\ Appointment.end_time (fields d) > start.

(** "end_time = start_time + duration_min minutes" *)
Definition end_time_consistent (d : document) : Prop :=
  Appointment.end_time (fields d)
  = Appointment.start_time (fields d)
    + Main.minutes (Appointment.duration_min (fields d)).

(** "each token of length <= 2 becomes its first character followed by *,
    each longer token its first character followed by ***" *)
Definition mask_token (p : string) : string :=
  match p with
  | EmptyString => EmptyString
  | String c _ => if (String.length p <=? 2)%nat then String c "*" else String c "***"
  end.

Definition render (tokens : list string) : string :=
  match tokens with
  | [] => "Customer"
  | _ => Py.join " " (map mask_token tokens)
  end.



(** A token all of whose characters are alphabetic. *)
Fixpoint all_chars (f : ascii -> bool) (s : string) : bool :=
  match s with
  | EmptyString => true
  | String c t => f c && all_chars f t
  end.

Definition has_alphabetic_token (name : string) : Prop :=
  exists p, In p (Py.split_whitespace name) /\ all_chars Py.isalpha p = true.

Definition count_digits (phone : string) : nat :=
  List.length (filter Py.isdigit (list_ascii_of_string phone)).

(** The documents [list_appointments] asks the store for. *)
Definition listed_for (barber_id : option string) (d : document) : bool :=
  match barber_id with
  | Some b =>
      if Py.truthy b then (Appointment.barber_id (fields d) =? b)%string else true
  | None => true
  end.

(** "cancel modifies only status and updated_at" *)
Definition only_status_changed (d d' : document) : Prop :=
  _id d' = _id d
  /\ Appointment.customer_name (fields d') = Appointment.customer_name (fields d)
  /\ Appointment.customer_phone (fields d') = Appointment.customer_phone (fields d)
  /\ Appointment.barber_id (fields d') = Appointment.barber_id (fields d)
  /\ Appointment.service_name (fields d') = Appointment.service_name (fields d)
  /\ Appointment.start_time (fields d') = Appointment.start_time (fields d)
  /\ Appointment.end_time (fields d') = Appointment.end_time (fields d)
  /\ Appointment.duration_min (fields d') = Appointment.duration_min (fields d)
  /\ Appointment.notes (fields d') = Appointment.notes (fields d).

(** The document a successful create persists: the request's fields, the
    computed end, status "booked". *)
Definition booked (body : AppointmentIn.t) : Appointment.t :=
  Appointment.mk (AppointmentIn.customer_name body)
    (AppointmentIn.customer_phone body) (AppointmentIn.barber_id body)
    (AppointmentIn.service_name body) (AppointmentIn.start_time body)
    (AppointmentIn.start_time body + Main.minutes (AppointmentIn.duration_min body))
    (AppointmentIn.duration_min body) (AppointmentIn.notes body)
    "booked" None.

(** "sets status to canceled, sets updated_at to the current instant" *)
Definition canceled_at (now : Z) (a : Appointment.t) : Appointment.t :=
  Appointment.mk (Appointment.customer_name a) (Appointment.customer_phone a)
    (Appointment.barber_id a) (Appointment.service_name a)
    (Appointment.start_time a) (Appointment.end_time a)
    (Appointment.duration_min a) (Appointment.notes a)
    "canceled" (Some now).

(** "24 hexadecimal digits" *)
Definition is_hex_digit (c : ascii) : bool :=
  match Bson.hex_value c with Some _ => true | None => false end.

Definition twenty_four_hex_digits (text : string) : bool :=
  (String.length text =? 24)%nat && all_chars is_hex_digit text.


Definition NotFound : exception := HTTPException 404 "Appointment not found".

Definition SlotUnavailable : exception := HTTPException 400 "Time slot not available".

(** The requests that write to the collection, and a run of them. *)
Inductive request :=
| Create (body : AppointmentIn.t) (new_id : Bson.oid)
| Cancel (appointment_id : string) (now : Z).

Definition step (db : collection) (r : request) : collection :=
  match r with
  | Create body new_id => snd (Main.create_appointment body new_id db)
  | Cancel appointment_id now => snd (Main.cancel_appointment appointment_id now db)
  end.

Definition run (rs : list request) (db : collection) : collection :=
  fold_left step rs db.

End Wording.

(** The filter both handlers hand to [find_one], named once for the proofs. *)
Definition overlap_filter (barber_id : string) (start end_ : Z)
    (d : Store.document) : bool :=
  (Appointment.barber_id (Store.fields d) =? barber_id)%string
  && negb (Appointment.status (Store.fields d) =? "canceled")%string
  && existsb (fun clause => clause)
       [ (Appointment.start_time (Store.fields d) <? end_)
         && (Appointment.end_time (Store.fields d) >? start) ].

(** ** Sample data: the spec's examples *)

Module Sample.

Definition at_ (h m : Z) : Z := h * 3600000 + m * 60000.

Definition appt (barber : string) (start : Z) (dur : Z) (status : string)
    (updated : option Z) : Appointment.t :=
  Appointment.mk "Jo Smith" "555-123-4567" barber "Haircut"
    start (start + Main.minutes dur) dur None status updated.

(** Barber B has [10:00, 10:30) booked. *)
Definition booked_10 : Store.collection :=
  [Store.mkdoc 1%N (appt "B" (at_ 10 0) 30 "booked" None)].

Definition request (barber : string) (start dur : Z) : AppointmentIn.t :=
  AppointmentIn.mk "Ann Lee" "555-987-6543" barber "Beard Trim" start dur None.



(** Eight pairs of zeros, a space after each: 24 characters. *)
Definition spaced_zeros : string := "00 00 00 00 00 00 00 00 ".

(** The same collection after that appointment was canceled at instant 1000. *)
Definition canceled_10 : Store.collection :=
  [Store.mkdoc 1%N (appt "B" (at_ 10 0) 30 "canceled" (Some 1000))].

End Sample.

(** ** What a collection of appointments should look like *)

Module Booking.

Import Store.

(** Two stored intervals overlap (half-open, as the handlers test it). *)
Definition overlapping (a b : document) : Prop :=
  Appointment.start_time (fields a) < Appointment.end_time (fields b)
  /\ Appointment.start_time (fields b) < Appointment.end_time (fields a).

Definition active (d : document) : Prop :=
  Appointment.status (fields d) <> "canceled".

Definition double_booked (a b : document) : Prop :=
  Appointment.barber_id (fields a) = Appointment.barber_id (fields b)
  /\ active a /\ active b /\ overlapping a b.

(** No two documents at different positions double-book a barber. *)
Definition no_double_booking (db : collection) : Prop :=
  ForallOrdPairs (fun a b => ~ double_booked a b) db.


(** A later state [d'] of a stored document [d]: same identity, customer and
    schedule, and still canceled if it was. *)
Definition later_state (d d' : document) : Prop :=
  Wording.only_status_changed d d'
  /\ (Appointment.status (fields d) = "canceled" ->
      Appointment.status (fields d') = "canceled").

End Booking.

(** ** The catalog: barbers, services and the startup seed *)

Module Catalog.

(** [schemas.Barber] / [main.BarberIn]; a key a document lacks reads [None]. *)
Record Barber := mkbarber {
  barber_name : string;
  avatar_url : option string;
  bio : option string
}.

(** [schemas.Service] / [main.ServiceIn]; [price] is a Python float. *)
Record Service := mkservice {
  service_name : string;
  description : option string;
  duration_min : Z;
  price : float
}.

Section Collections.

Variable A : Type.

Record item := mkitem {
  item_id : Bson.oid;
  item_fields : A
}.

Definition has_id (o : Bson.oid) (d : item) : bool := (item_id d =? o)%N.

(** [collection.find_one(filter)] *)
Definition find_one (q : item -> bool) (c : list item) : option item :=
  List.find q c.

(** [collection.count_documents(filter)] *)
Definition count_documents (q : item -> bool) (c : list item) : Z :=
  Z.of_nat (List.length (filter q c)).

(** [collection.update_one({"_id": o}, {"$set": ...})], the assignments given
    as the function [set] on the fields: the first document with that
    identity receives them. *)
Fixpoint update_by_id (o : Bson.oid) (set : A -> A) (c : list item) : list item :=
  match c with
  | [] => []
  | d :: rest =>
      if has_id o d then mkitem (item_id d) (set (item_fields d)) :: rest
      else d :: update_by_id o set rest
  end.

(** Modelled from the spec: [database.create_document], which is not among
    the sources.  The store adapter's [create(collection, document) -> id]
    persists the document as given and returns its new identity as text;
    [None] is the driver's [DuplicateKeyError]. *)
Definition create_document (new_id : Bson.oid) (data : A) (c : list item)
  : option (string * list item) :=
  if existsb (has_id new_id) c then None
  else Some (Bson.str new_id, (c ++ [mkitem new_id data])%list).

(** Modelled from the spec: [database.get_documents], which is not among
    the sources: [find_many(collection, {})], every document in storage
    order. *)
Definition get_documents (c : list item) : list item := c.

(** [serialize(doc)] *)
Definition serialize (doc : option item) : option (string * A) :=
  match doc with
  | None => None
  | Some d => Some (Bson.str (item_id d), item_fields d)
  end.

(** [list_barbers] and [list_services] *)
Definition list_all (c : list item) : list (option (string * A)) :=
  map (fun i => serialize (Some i)) (get_documents c).

(** [add_barber] and [add_service]: create, read back by the identity text,
    serialize. *)
Definition add (body : A) (new_id : Bson.oid) (c : list item)
  : outcome (option (string * A)) * list item :=
  match create_document new_id body c with
  | None => (Raise DuplicateKeyError, c)
  | Some (_id, c') =>
      match Bson.ObjectId _id with
      | None => (Raise InvalidId, c')
      | Some oid => (Return (serialize (find_one (has_id oid) c')), c')
      end
  end.

End Collections.

Arguments mkitem {A} _ _.
Arguments item_id {A} _.
Arguments item_fields {A} _.
Arguments has_id {A} _ _.
Arguments find_one {A} _ _.
Arguments count_documents {A} _ _.
Arguments update_by_id {A} _ _ _.
Arguments create_document {A} _ _ _.
Arguments get_documents {A} _.
Arguments serialize {A} _.
Arguments list_all {A} _.
Arguments add {A} _ _ _.

Record database := mkdb {
  barber : list (item Barber);
  service : list (item Service)
}.

Definition named_barber (n : string) (d : item Barber) : bool :=
  (barber_name (item_fields d) =? n)%string.

Definition named_service (n : string) (d : item Service) : bool :=
  (service_name (item_fields d) =? n)%string.

Definition default_barbers : list string :=
  ["John Fade"; "Lisa Shear"; "Mike Lineup"].

Definition default_services : list Service :=
  [mkservice "Haircut" None 30 18%float;
   mkservice "Beard Trim" None 15 15%float;
   mkservice "Haircut + Beard" None 45 35%float].

(** Is no barber of that name stored? *)
Definition missing_barber (c : list (item Barber)) (name : string) : bool :=
  count_documents (named_barber name) c =? 0.

(** The document the seed writes for a barber name. *)
Definition seeded_barber (new_id : string -> Bson.oid) (name : string) : item Barber :=
  mkitem (new_id name) (mkbarber name None (Some "Pro barber")).

(** The seed's [$set] on an existing "Haircut" service. *)
Definition set_haircut (a : Service) : Service :=
  mkservice (service_name a) (description a) 30 18%float.

(** One turn of the loop over the barber names. *)
Definition seed_barber (new_id : string -> Bson.oid) (c : list (item Barber))
    (name : string) : option (list (item Barber)) :=
  if count_documents (named_barber name) c =? 0
  then match create_document (new_id name)
               (mkbarber name None (Some "Pro barber")) c with
       | Some (_, c') => Some c'
       | None => None
       end
  else Some c.

(** One turn of the loop over the default services. *)
Definition seed_service (new_id : string -> Bson.oid) (c : list (item Service))
    (s : Service) : option (list (item Service)) :=
  match find_one (named_service (service_name s)) c with
  | None =>
      match create_document (new_id (service_name s)) s c with
      | Some (_, c') => Some c'
      | None => None
      end
  | Some existing =>
      if (service_name s =? "Haircut")%string
      then Some (update_by_id (item_id existing)
                   (fun a => mkservice (service_name a) (description a)
                               (duration_min s) 18%float) c)
      else Some c
  end.

Fixpoint for_each {S X : Type} (body : S -> X -> option S) (xs : list X) (st : S)
  : option S :=
  match xs with
  | [] => Some st
  | x :: rest =>
      match body st x with
      | Some st' => for_each body rest st'
      | None => None
      end
  end.

(** [seed_defaults]; [new_id n] is the identity the driver generates should
    the default called [n] be inserted, and [None] is an exception leaving
    the startup handler. *)
Definition seed_defaults (new_id : string -> Bson.oid) (db : database)
  : option database :=
  match for_each (seed_barber new_id) default_barbers (barber db) with
  | None => None
  | Some barbers =>
      match for_each (seed_service new_id) default_services (service db) with
      | None => None
      | Some services => Some (mkdb barbers services)
      end
  end.

End Catalog.

Example mask_name_jo_smith : Masking.mask_name "Jo Smith" = "J* S***".
Proof. reflexivity. Qed.

Example mask_phone_full : Masking.mask_phone "555-123-4567" = "***-***-4567".
Proof. reflexivity. Qed.

Example mask_phone_short : Masking.mask_phone "12" = "***".
Proof. reflexivity. Qed.

Example check_inside_booked :
  Main.available (Main.check_availability "B" (Sample.at_ 10 15) 15 Sample.booked_10) = false.
Proof. reflexivity. Qed.

Example check_touching_booked :
  Main.available (Main.check_availability "B" (Sample.at_ 10 30) 15 Sample.booked_10) = true.
Proof. reflexivity. Qed.

(** * Availability and creation *)

Section Scheduling.

Import Store Main Wording.

Lemma overlap_filter_conflicts (barber : string) (start end_ : Z) (d : document) :
  overlap_filter barber start end_ d = true <-> conflicts barber start end_ d.
Proof.
  unfold overlap_filter, conflicts; cbn [existsb].
  rewrite orb_false_r, !andb_true_iff, negb_true_iff.
  rewrite String.eqb_eq, String.eqb_neq, Z.ltb_lt, Z.gtb_gt.
  tauto.
Qed.

Lemma check_availability_unfold (barber : string) (start dur : Z) (db : collection) :
  check_availability barber start dur db
  = mkavail (is_None (find_one (overlap_filter barber start (start + minutes dur)) db)).
Proof. reflexivity. Qed.

Lemma find_one_None (q : document -> bool) (db : collection) :
  find_one q db = None <-> forall d, In d db -> q d = false.
Proof.
  unfold find_one; split.
  - intros H d Hd. exact (find_none q db H d Hd).
  - induction db as [|x db IH]; cbn; intros H; [reflexivity|].
    rewrite (H x (or_introl eq_refl)). apply IH.
    intros d Hd. apply H. now right.
Qed.

Lemma available_iff (barber : string) (start dur : Z) (db : collection) :
  available (check_availability barber start dur db) = true
  <-> ~ exists d, In d db /\ conflicts barber start (start + minutes dur) d.
Proof.
  rewrite check_availability_unfold; cbn [available].
  destruct (find_one _ db) as [d|] eqn:E; cbn [is_None].
  - split; [discriminate|]. intros H; exfalso; apply H.
    apply find_some in E. exists d. now rewrite <- overlap_filter_conflicts.
  - split; [|reflexivity]. intros _ [d [Hd Hc]].
    rewrite find_one_None in E. apply overlap_filter_conflicts in Hc.
    rewrite (E d Hd) in Hc. discriminate.
Qed.

Lemma create_appointment_unfold (body : AppointmentIn.t) (new_id : Bson.oid)
    (db : collection) :
  create_appointment body new_id db
  = let end_ := AppointmentIn.start_time body
                + minutes (AppointmentIn.duration_min body) in
    match find_one (overlap_filter (AppointmentIn.barber_id body)
                      (AppointmentIn.start_time body) end_) db with
    | Some _ => (Raise (HTTPException 400 "Time slot not available"), db)
    | None =>
        match create_document new_id (booked body) db with
        | None => (Raise DuplicateKeyError, db)
        | Some (_id, db') =>
            match Bson.ObjectId _id with
            | None => (Raise InvalidId, db')
            | Some oid => (Return (serialize (find_one (by_id oid) db')), db')
            end
        end
    end.
Proof. reflexivity. Qed.

(** The query of the availability check: it answers [available = true]
    exactly when no stored appointment of that barber with a status other
    than canceled has [start_time < end] and [end_time > start]; appointments
    that only touch the candidate interval (ending at its start, or starting
    at its end) never make it unavailable. *)
Lemma query_half_open :
  forall (barber : string) (start dur : Z) (db : collection),
    (available (check_availability barber start dur db) = true
     <-> ~ exists d, In d db /\ conflicts barber start (start + minutes dur) d)
    /\ (forall d, find_one (overlap_filter barber start (start + minutes dur)) db = Some d ->
          Appointment.end_time (fields d) <> start
          /\ Appointment.start_time (fields d) <> start + minutes dur)
    /\ ((forall d, In d db ->
           Appointment.end_time (fields d) <= start
           \/ start + minutes dur <= Appointment.start_time (fields d)) ->
        available (check_availability barber start dur db) = true).
Proof.
  intros barber start dur db. split; [apply available_iff|split].
  - intros d E. apply find_some in E. destruct E as [_ E].
    apply overlap_filter_conflicts in E. destruct E as (_ & _ & H1 & H2). lia.
  - intros H. apply available_iff. intros [d [Hd (_ & _ & H1 & H2)]].
    destruct (H d Hd); lia.
Qed.

(** C2. The read-only check answers [available = false] exactly when
    creating an appointment with the same barber, start and duration fails
    with the slot-unavailable error. *)
Theorem create_check_consistency :
  forall (db : collection) (body : AppointmentIn.t) (new_id : Bson.oid),
    available (check_availability (AppointmentIn.barber_id body)
                 (AppointmentIn.start_time body)
                 (AppointmentIn.duration_min body) db) = false
    <-> fst (create_appointment body new_id db)
        = Raise (HTTPException 400 "Time slot not available").
Proof.
  intros db body new_id.
  rewrite check_availability_unfold, create_appointment_unfold; cbn zeta.
  destruct (find_one _ db) as [d|]; cbn [available is_None fst].
  - split; reflexivity.
  - split; [discriminate|].
    destruct (create_document _ _ db) as [[i db']|]; [|discriminate].
    destruct (Bson.ObjectId i); discriminate.
Qed.



(** The query for a duration of 0 or less: the end is not after the start,
    and the answer is [available = false] exactly when some non-canceled
    appointment of the barber has [start_time < end] and [end_time > start].
    Such an appointment strictly contains the candidate start, so the answer
    is [available = true] whenever the start lies strictly inside no
    non-canceled appointment of that barber. *)
Lemma query_nonpositive_duration :
  forall (barber : string) (start dur : Z) (db : collection),
    dur <= 0 ->
    start + minutes dur <= start
    /\ (available (check_availability barber start dur db) = false
        <-> exists d, In d db /\ conflicts barber start (start + minutes dur) d)
    /\ (available (check_availability barber start dur db) = false ->
        exists d, In d db
                  /\ Appointment.barber_id (fields d) = barber
                  /\ Appointment.status (fields d) <> "canceled"
                  /\ Appointment.start_time (fields d) < start
                  /\ start < Appointment.end_time (fields d))
    /\ ((forall d, In d db ->
            Appointment.barber_id (fields d) = barber ->
            Appointment.status (fields d) <> "canceled" ->
            start <= Appointment.start_time (fields d)
            \/ Appointment.end_time (fields d) <= start) ->
        available (check_availability barber start dur db) = true).
Proof.
  intros barber start dur db Hd.
  assert (Hle : start + minutes dur <= start) by (unfold minutes; lia).
  assert (Hiff : available (check_availability barber start dur db) = false
                 <-> exists d, In d db
                               /\ conflicts barber start (start + minutes dur) d).
  { rewrite check_availability_unfold; cbn [available].
    destruct (find_one _ db) as [d|] eqn:E; cbn [is_None].
    - split; [|reflexivity]. intros _. apply find_some in E.
      exists d. now rewrite <- overlap_filter_conflicts.
    - split; [discriminate|]. intros [d [Hin Hc]].
      rewrite find_one_None in E. apply overlap_filter_conflicts in Hc.
      rewrite (E d Hin) in Hc. discriminate. }
  split; [exact Hle|]. split; [exact Hiff|]. split.
  - intros H. apply Hiff in H. destruct H as [d [Hin (Hb & Hs & H1 & H2)]].
    exists d. repeat split; try assumption; lia.
  - intros H. apply available_iff.
    intros [d [Hin (Hb & Hs & H1 & H2)]].
    destruct (H d Hin Hb Hs); lia.
Qed.

(** ** The addition that forms [end] *)

Lemma add_minutes_Some (start n e : Z) :
  Datetime.add_minutes start n = Some e
  <-> e = start + minutes n
      /\ Z.abs (n / 1440) <= 999999999
      /\ Datetime.min <= e <= Datetime.max.
Proof.
  unfold Datetime.add_minutes, Datetime.timedelta_minutes, Datetime.representable.
  destruct (Z.leb_spec (Z.abs (n / 1440)) 999999999) as [Hd|Hd]; cbn zeta.
  - destruct (Z.leb_spec Datetime.min (start + minutes n)) as [H1|H1];
      destruct (Z.leb_spec (start + minutes n) Datetime.max) as [H2|H2];
      cbn [andb].
    + split; [intros [= <-]; auto|]. intros (-> & _). reflexivity.
    + split; [discriminate|]. intros (-> & _ & _ & H). lia.
    + split; [discriminate|]. intros (-> & _ & H & _). lia.
    + split; [discriminate|]. intros (-> & _ & H & _). lia.
  - split; [discriminate|]. intros (_ & H & _). lia.
Qed.

Lemma add_minutes_None (start n : Z) :
  Datetime.add_minutes start n = None
  <-> 999999999 < Z.abs (n / 1440)
      \/ start + minutes n < Datetime.min
      \/ Datetime.max < start + minutes n.
Proof.
  unfold Datetime.add_minutes, Datetime.timedelta_minutes, Datetime.representable.
  destruct (Z.leb_spec (Z.abs (n / 1440)) 999999999) as [Hd|Hd]; cbn zeta.
  - destruct (Z.leb_spec Datetime.min (start + minutes n)) as [H1|H1];
      destruct (Z.leb_spec (start + minutes n) Datetime.max) as [H2|H2];
      cbn [andb]; split; try discriminate; try (intros _; reflexivity);
      try (intros _; lia).
    intros [H|[H|H]]; lia.
  - split; [intros _; now left|reflexivity].
Qed.

(** From a start that is a [datetime], the addition succeeds exactly when
    the sum is within the range of [datetime]; the bound on [timedelta] is
    then met as well. *)
Lemma add_minutes_of_representable (start n : Z) :
  Datetime.representable start = true ->
  (Datetime.min <= start + minutes n <= Datetime.max
   <-> Datetime.add_minutes start n = Some (start + minutes n)).
Proof.
  intros Hr. rewrite add_minutes_Some. split.
  - intros H. split; [reflexivity|]. split; [|exact H].
    unfold Datetime.representable in Hr. apply andb_true_iff in Hr.
    destruct Hr as [A B]. apply Z.leb_le in A, B.
    unfold Datetime.min, Datetime.max, minutes in *.
    Z.div_mod_to_equations. lia.
  - intros (_ & _ & H). exact H.
Qed.

Lemma endpoint_check_in_range (barber : string) (start dur end_ : Z)
    (db : collection) :
  Datetime.add_minutes start dur = Some end_ ->
  Endpoint.check_availability barber start dur db
  = Return (check_availability barber start dur db).
Proof. intros H. unfold Endpoint.check_availability. cbn zeta. now rewrite H. Qed.

Lemma endpoint_check_out_of_range (barber : string) (start dur : Z)
    (db : collection) :
  Datetime.add_minutes start dur = None ->
  Endpoint.check_availability barber start dur db = Raise OverflowError.
Proof. intros H. unfold Endpoint.check_availability. cbn zeta. now rewrite H. Qed.

Lemma endpoint_create_in_range (body : AppointmentIn.t) (new_id : Bson.oid)
    (db : collection) (end_ : Z) :
  Datetime.add_minutes (AppointmentIn.start_time body)
    (AppointmentIn.duration_min body) = Some end_ ->
  Endpoint.create_appointment body new_id db = create_appointment body new_id db.
Proof. intros H. unfold Endpoint.create_appointment. cbn zeta. now rewrite H. Qed.

(** When the addition raises, creation has written nothing. *)
Lemma endpoint_create_out_of_range (body : AppointmentIn.t) (new_id : Bson.oid)
    (db : collection) :
  Datetime.add_minutes (AppointmentIn.start_time body)
    (AppointmentIn.duration_min body) = None ->
  Endpoint.create_appointment body new_id db = (Raise OverflowError, db).
Proof. intros H. unfold Endpoint.create_appointment. cbn zeta. now rewrite H. Qed.

(** From its first line on, creation writes what its query and insertion
    write, or nothing. *)
Lemma endpoint_create_store (body : AppointmentIn.t) (new_id : Bson.oid)
    (db : collection) :
  snd (Endpoint.create_appointment body new_id db) = db
  \/ snd (Endpoint.create_appointment body new_id db)
     = snd (create_appointment body new_id db).
Proof.
  unfold Endpoint.create_appointment. cbn zeta.
  destruct (Datetime.add_minutes _ _); [now right|now left].
Qed.

(** With the sum in range and a conflicting appointment in the collection,
    creation from its first line on fails with the 400 and writes nothing. *)
Lemma endpoint_conflict_writes_nothing (body : AppointmentIn.t)
    (new_id : Bson.oid) (db : collection) (end_ : Z) :
  Datetime.add_minutes (AppointmentIn.start_time body)
    (AppointmentIn.duration_min body) = Some end_ ->
  (exists d, In d db
             /\ conflicts (AppointmentIn.barber_id body)
                  (AppointmentIn.start_time body) end_ d) ->
  Endpoint.create_appointment body new_id db
  = (Raise (HTTPException 400 "Time slot not available"), db).
Proof.
  intros He [d [Hd Hc]].
  rewrite (endpoint_create_in_range body new_id db end_ He).
  apply add_minutes_Some in He. destruct He as (-> & _).
  rewrite create_appointment_unfold; cbn zeta.
  destruct (find_one _ db) as [x|] eqn:E; [reflexivity|].
  rewrite find_one_None in E. apply overlap_filter_conflicts in Hc.
  rewrite (E d Hd) in Hc. discriminate.
Qed.

(** The check and the creation agree from their first line on: one answers
    [available = false] exactly when the other fails with the 400; when the
    addition raises, both raise it. *)
Lemma endpoint_check_agrees_with_create (db : collection) (body : AppointmentIn.t)
    (new_id : Bson.oid) :
  Endpoint.check_availability (AppointmentIn.barber_id body)
    (AppointmentIn.start_time body) (AppointmentIn.duration_min body) db
  = Return (mkavail false)
  <-> fst (Endpoint.create_appointment body new_id db)
      = Raise (HTTPException 400 "Time slot not available").
Proof.
  unfold Endpoint.check_availability, Endpoint.create_appointment. cbn zeta.
  destruct (Datetime.add_minutes _ _) as [e|].
  - rewrite check_availability_unfold, create_appointment_unfold; cbn zeta.
    destruct (find_one _ db) as [d|]; cbn [is_None fst].
    + split; reflexivity.
    + split; [discriminate|].
      destruct (create_document _ _ db) as [[i db']|]; [|discriminate].
      destruct (Bson.ObjectId i); discriminate.
  - cbn [fst]. split; discriminate.
Qed.

(** C1, as stated, fails: the check does not answer for every duration.
    With barber B booked from 10:00 to 10:30, a start of 10:15 and a duration
    of minus ten thousand million minutes, the sum lies before the first
    [datetime] and the addition raises [OverflowError]. *)
Lemma check_availability_overflows_out_of_range :
  ~ (forall (barber : string) (start dur : Z) (db : collection),
        exists a,
          Endpoint.check_availability barber start dur db = Return a
          /\ (available a = true
              <-> ~ exists d, In d db
                              /\ conflicts barber start (start + minutes dur) d)).
Proof.
  intros H.
  destruct (H "B" (Sample.at_ 10 15) (-10000000000) Sample.booked_10)
    as [a [Ha _]].
  vm_compute in Ha. discriminate Ha.
Qed.

(** C1, amended. When [start + timedelta(minutes=duration)] is within the
    range of [datetime], the availability check returns, and its answer is
    [available = true] exactly when no stored appointment of that barber
    with a status other than canceled has [start_time < end] and
    [end_time > start]; appointments that only touch the candidate interval
    (ending at its start, or starting at its end) never make it unavailable.
    Otherwise the addition raises [OverflowError] and the check answers
    nothing. From a start that is a [datetime], the addition succeeds
    exactly when the sum lies between 0001-01-01T00:00 and the last instant
    of the year 9999. *)
Theorem check_availability_half_open_in_range :
  forall (barber : string) (start dur : Z) (db : collection),
    (forall end_,
        Datetime.add_minutes start dur = Some end_ ->
        end_ = start + minutes dur
        /\ exists a,
             Endpoint.check_availability barber start dur db = Return a
             /\ (available a = true
                 <-> ~ exists d, In d db /\ conflicts barber start end_ d)
             /\ (forall d, find_one (overlap_filter barber start end_) db = Some d ->
                   Appointment.end_time (fields d) <> start
                   /\ Appointment.start_time (fields d) <> end_)
             /\ ((forall d, In d db ->
                    Appointment.end_time (fields d) <= start
                    \/ end_ <= Appointment.start_time (fields d)) ->
                 available a = true))
    /\ (Datetime.add_minutes start dur = None ->
        Endpoint.check_availability barber start dur db = Raise OverflowError)
    /\ (Datetime.representable start = true ->
        (Datetime.min <= start + minutes dur <= Datetime.max
         <-> exists end_, Datetime.add_minutes start dur = Some end_)).
Proof.
  intros barber start dur db. split; [|split].
  - intros end_ He.
    pose proof (endpoint_check_in_range barber start dur end_ db He) as Hc.
    apply add_minutes_Some in He. destruct He as (-> & _).
    split; [reflexivity|].
    exists (check_availability barber start dur db).
    split; [exact Hc|]. apply query_half_open.
  - apply endpoint_check_out_of_range.
  - intros Hr. rewrite (add_minutes_of_representable start dur Hr). split.
    + intros H. now exists (start + minutes dur).
    + intros [e He]. pose proof He as He'.
      apply add_minutes_Some in He'. destruct He' as (-> & _). exact He.
Qed.

(** C5, as stated, fails: with a duration of 0 a start that lies strictly
    inside a booked appointment is reported unavailable. *)
Lemma nonpositive_duration_unavailable_inside_booking :
  ~ (forall (barber : string) (start dur : Z) (db : collection),
        dur <= 0 ->
        Endpoint.check_availability barber start dur db = Return (mkavail true)).
Proof.
  intros H.
  specialize (H "B" (Sample.at_ 10 15) 0 Sample.booked_10 (Z.le_refl 0)).
  vm_compute in H. discriminate H.
Qed.

(** C5, amended. For a duration of 0 or less the check answers whenever
    [start + timedelta(minutes=duration)] is within the range of [datetime]:
    the end it forms is not after the start, and the answer is
    [available = false] exactly when some non-canceled appointment of the
    barber has [start_time < end] and [end_time > start]. Such an appointment
    strictly contains the candidate start, so the answer is
    [available = true] whenever the start lies strictly inside no
    non-canceled appointment of that barber. When the sum is out of range the
    addition raises [OverflowError]; from a start that is a [datetime] that
    is exactly when the sum lies before 0001-01-01T00:00. *)
Theorem nonpositive_duration_in_range :
  forall (barber : string) (start dur : Z) (db : collection),
    dur <= 0 ->
    (forall end_,
        Datetime.add_minutes start dur = Some end_ ->
        end_ = start + minutes dur
        /\ end_ <= start
        /\ exists a,
             Endpoint.check_availability barber start dur db = Return a
             /\ (available a = false
                 <-> exists d, In d db /\ conflicts barber start end_ d)
             /\ (available a = false ->
                 exists d, In d db
                           /\ Appointment.barber_id (fields d) = barber
                           /\ Appointment.status (fields d) <> "canceled"
                           /\ Appointment.start_time (fields d) < start
                           /\ start < Appointment.end_time (fields d))
             /\ ((forall d, In d db ->
                    Appointment.barber_id (fields d) = barber ->
                    Appointment.status (fields d) <> "canceled" ->
                    start <= Appointment.start_time (fields d)
                    \/ Appointment.end_time (fields d) <= start) ->
                 available a = true))
    /\ (Datetime.add_minutes start dur = None ->
        Endpoint.check_availability barber start dur db = Raise OverflowError)
    /\ (Datetime.representable start = true ->
        (Datetime.min <= start + minutes dur
         <-> exists end_, Datetime.add_minutes start dur = Some end_)).
Proof.
  intros barber start dur db Hd. split; [|split].
  - intros end_ He.
    pose proof (endpoint_check_in_range barber start dur end_ db He) as Hc.
    apply add_minutes_Some in He. destruct He as (-> & _).
    destruct (query_nonpositive_duration barber start dur db Hd)
      as (Hle & Hiff & Hin & Hout).
    split; [reflexivity|]. split; [exact Hle|].
    exists (check_availability barber start dur db).
    split; [exact Hc|]. split; [exact Hiff|]. split; [exact Hin|exact Hout].
  - apply endpoint_check_out_of_range.
  - intros Hr.
    assert (Hmax : start + minutes dur <= Datetime.max).
    { unfold Datetime.representable in Hr. apply andb_true_iff in Hr.
      destruct Hr as [_ B]. apply Z.leb_le in B. unfold minutes. lia. }
    split.
    + intros H. exists (start + minutes dur).
      apply (add_minutes_of_representable start dur Hr). lia.
    + intros [e He]. apply add_minutes_Some in He. destruct He as (-> & _ & H).
      lia.
Qed.

Lemma nonpositive_duration_in_range_witness :
  -5 <= 0
  /\ Datetime.add_minutes (Sample.at_ 10 30) (-5) = Some (Sample.at_ 10 25)
  /\ exists a,
       Endpoint.check_availability "B" (Sample.at_ 10 30) (-5) Sample.booked_10
       = Return a
       /\ available a = true.
Proof.
  split; [discriminate|]. split; [reflexivity|].
  destruct (proj1 (nonpositive_duration_in_range "B" (Sample.at_ 10 30) (-5)
                     Sample.booked_10 ltac:(discriminate))
              (Sample.at_ 10 25) eq_refl)
    as (_ & _ & a & Ha & _ & _ & Hfree).
  exists a. split; [exact Ha|]. apply Hfree.
  intros d [Hd|[]] _ _. subst d. right. cbn. discriminate.
Defined.

End Scheduling.

Lemma check_availability_half_open_in_range_witness :
  Datetime.add_minutes (Sample.at_ 10 30) 15 = Some (Sample.at_ 10 45)
  /\ (forall d, In d Sample.booked_10 ->
        Appointment.end_time (Store.fields d) <= Sample.at_ 10 30
        \/ Sample.at_ 10 45 <= Appointment.start_time (Store.fields d))
  /\ exists a,
       Endpoint.check_availability "B" (Sample.at_ 10 30) 15 Sample.booked_10
       = Return a
       /\ Main.available a = true.
Proof.
  assert (H : forall d, In d Sample.booked_10 ->
     Appointment.end_time (Store.fields d) <= Sample.at_ 10 30
     \/ Sample.at_ 10 45 <= Appointment.start_time (Store.fields d)).
  { intros d [Hd|[]]. subst d. left. cbn. discriminate. }
  split; [reflexivity|]. split; [exact H|].
  destruct (proj1 (check_availability_half_open_in_range "B" (Sample.at_ 10 30) 15
                     Sample.booked_10)
              (Sample.at_ 10 45) eq_refl)
    as (_ & a & Ha & _ & _ & Hfree).
  exists a. split; [exact Ha|]. exact (Hfree H).
Defined.

(** * The collection under create and cancel *)

Section Lifecycle.

Import Store Main Wording.

Lemma assign_only_status (sets : list assignment) :
  forall (i : Bson.oid) (a : Appointment.t),
    only_status_changed (mkdoc i a) (mkdoc i (fold_left assign sets a)).
Proof.
  induction sets as [|u sets IH]; intros i a.
  - unfold only_status_changed; cbn; repeat split.
  - cbn [fold_left]. specialize (IH i (assign a u)).
    unfold only_status_changed in *; cbn [_id fields] in *.
    destruct IH as (H0 & H1 & H2 & H3 & H4 & H5 & H6 & H7 & H8).
    rewrite H1, H2, H3, H4, H5, H6, H7, H8.
    destruct u; cbn; repeat split.
Qed.

Lemma only_status_changed_refl (d : document) : only_status_changed d d.
Proof. unfold only_status_changed; repeat split. Qed.

Lemma Forall2_only_status_refl (db : collection) :
  Forall2 only_status_changed db db.
Proof.
  induction db; constructor; auto using only_status_changed_refl.
Qed.

Lemma update_one_only_status (q : document -> bool) (sets : list assignment)
    (db : collection) :
  Forall2 only_status_changed db (snd (update_one q sets db)).
Proof.
  induction db as [|d db IH]; cbn; [constructor|].
  destruct (q d).
  - destruct (forallb _ sets); cbn.
    + apply Forall2_only_status_refl.
    + constructor; [|apply Forall2_only_status_refl].
      destruct d as [i a]. apply assign_only_status.
  - destruct (update_one q sets db) as [r rest']; cbn in *.
    constructor; [apply only_status_changed_refl|exact IH].
Qed.

Lemma consistent_transfer (db db' : collection) :
  Forall2 only_status_changed db db' ->
  Forall end_time_consistent db -> Forall end_time_consistent db'.
Proof.
  induction 1 as [|d d' db db' Hd _ IH]; intros Hc; [constructor|].
  inversion Hc as [|? ? Hd0 Hrest]; subst.
  constructor; [|auto].
  destruct Hd as (_ & _ & _ & _ & _ & Hs & He & Hm & _).
  unfold end_time_consistent in *. rewrite Hs, He, Hm. exact Hd0.
Qed.

Lemma cancel_appointment_snd (appointment_id : string) (now : Z) (db : collection) :
  snd (cancel_appointment appointment_id now db)
  = match Bson.ObjectId appointment_id with
    | None => db
    | Some oid =>
        snd (update_one (by_id oid) [SetStatus "canceled"; SetUpdatedAt now] db)
    end.
Proof.
  unfold cancel_appointment. destruct (Bson.ObjectId appointment_id); [|reflexivity].
  destruct (update_one _ _ db) as [res db'].
  destruct (modified_count res =? 0); reflexivity.
Qed.

Lemma cancel_only_status (appointment_id : string) (now : Z) (db : collection) :
  Forall2 only_status_changed db (snd (cancel_appointment appointment_id now db)).
Proof.
  rewrite cancel_appointment_snd. destruct (Bson.ObjectId appointment_id).
  - apply update_one_only_status.
  - apply Forall2_only_status_refl.
Qed.

Lemma create_appointment_snd (body : AppointmentIn.t) (new_id : Bson.oid)
    (db : collection) :
  snd (create_appointment body new_id db)
  = match find_one (overlap_filter (AppointmentIn.barber_id body)
                      (AppointmentIn.start_time body)
                      (AppointmentIn.start_time body
                       + minutes (AppointmentIn.duration_min body))) db with
    | Some _ => db
    | None =>
        if existsb (by_id new_id) db then db
        else (db ++ [mkdoc new_id (booked body)])%list
    end.
Proof.
  rewrite create_appointment_unfold; cbn zeta.
  destruct (find_one _ db); [reflexivity|].
  unfold create_document, insert_one.
  destruct (existsb (by_id new_id) db); [reflexivity|].
  destruct (Bson.ObjectId (Bson.str new_id)); reflexivity.
Qed.

Lemma booked_consistent (body : AppointmentIn.t) (new_id : Bson.oid) :
  end_time_consistent (mkdoc new_id (booked body)).
Proof. reflexivity. Qed.

Lemma step_preserves_consistency (db : collection) (r : request) :
  Forall end_time_consistent db -> Forall end_time_consistent (step db r).
Proof.
  intros H. destruct r as [body new_id|appointment_id now]; cbn [step].
  - rewrite create_appointment_snd.
    destruct (find_one _ db); [exact H|].
    destruct (existsb _ db); [exact H|].
    apply Forall_app. split; [exact H|].
    constructor; [apply booked_consistent|constructor].
  - exact (consistent_transfer _ _ (cancel_only_status appointment_id now db) H).
Qed.

(** Every collection the handlers build up from the empty one holds only
    documents whose end is the start plus the duration. *)
Lemma reachable_end_time_consistent (rs : list request) :
  Forall end_time_consistent (run rs []).
Proof.
  unfold run.
  assert (G : forall db, Forall end_time_consistent db ->
                         Forall end_time_consistent (fold_left step rs db)).
  { induction rs as [|r rs IH]; intros db H; [exact H|].
    cbn [fold_left]. apply IH. now apply step_preserves_consistency. }
  apply G. constructor.
Qed.

(** C4. The equation end_time = start_time + duration_min minutes holds of
    the document a create persists (written with status "booked" and the
    computed end), and every create and every cancel keeps it true of all
    stored documents: a create appends that one document or leaves the
    collection alone, and a cancel changes nothing but status and
    updated_at. *)
Theorem end_time_invariant :
  forall (db : collection),
    Forall end_time_consistent db ->
    (forall r : request, Forall end_time_consistent (step db r))
    /\ (forall (body : AppointmentIn.t) (new_id : Bson.oid),
          available (check_availability (AppointmentIn.barber_id body)
                       (AppointmentIn.start_time body)
                       (AppointmentIn.duration_min body) db) = true ->
          existsb (by_id new_id) db = false ->
          snd (create_appointment body new_id db)
          = (db ++ [mkdoc new_id (booked body)])%list
          /\ Appointment.end_time (booked body)
             = AppointmentIn.start_time body
               + minutes (AppointmentIn.duration_min body)
          /\ Appointment.status (booked body) = "booked"
          /\ end_time_consistent (mkdoc new_id (booked body)))
    /\ (forall (appointment_id : string) (now : Z),
          Forall2 only_status_changed db
            (snd (cancel_appointment appointment_id now db))).
Proof.
  intros db H. split; [|split].
  - intros r. now apply step_preserves_consistency.
  - intros body new_id Ha Hfresh.
    split; [|repeat split].
    rewrite create_appointment_snd, Hfresh.
    rewrite check_availability_unfold in Ha; cbn [available] in Ha.
    destruct (find_one _ db); [discriminate Ha|reflexivity].
  - intros appointment_id now. apply cancel_only_status.
Qed.

Lemma end_time_invariant_witness :
  Forall end_time_consistent Sample.booked_10
  /\ Forall end_time_consistent
       (step Sample.booked_10
          (Create (Sample.request "B" (Sample.at_ 10 30) 15) 2%N)).
Proof.
  assert (H : Forall end_time_consistent Sample.booked_10).
  { constructor; [reflexivity|constructor]. }
  split; [exact H|].
  exact (proj1 (end_time_invariant Sample.booked_10 H)
           (Create (Sample.request "B" (Sample.at_ 10 30) 15) 2%N)).
Defined.

End Lifecycle.

(** * Identities as text *)

Section Identities.

Import Bson.

Lemma length_append (a b : string) :
  String.length (a ++ b) = (String.length a + String.length b)%nat.
Proof. induction a as [|c a IH]; cbn; [reflexivity|now rewrite IH]. Qed.

Lemma hex_value_digit (v : N) : (v < 16)%N -> hex_value (hex_digit v) = Some v.
Proof.
  intros H.
  assert (C : (v = 0 \/ v = 1 \/ v = 2 \/ v = 3 \/ v = 4 \/ v = 5 \/ v = 6
               \/ v = 7 \/ v = 8 \/ v = 9 \/ v = 10 \/ v = 11 \/ v = 12
               \/ v = 13 \/ v = 14 \/ v = 15)%N) by lia.
  repeat (destruct C as [C|C]; [subst v; reflexivity|]).
  subst v; reflexivity.
Qed.

Lemma parse_hex_append (a b : string) :
  forall acc, parse_hex (a ++ b) acc
              = match parse_hex a acc with
                | Some x => parse_hex b x
                | None => None
                end.
Proof.
  induction a as [|c a IH]; intros acc; cbn; [reflexivity|].
  destruct (hex_value c); [apply IH|reflexivity].
Qed.

Lemma hex_of_length (k : nat) : forall n, String.length (hex_of k n) = k.
Proof.
  induction k as [|k IH]; intros n; cbn; [reflexivity|].
  rewrite length_append, IH. cbn. lia.
Qed.

Lemma parse_hex_of (k : nat) :
  forall n acc,
    (n < 16 ^ N.of_nat k)%N ->
    parse_hex (hex_of k n) acc = Some (acc * 16 ^ N.of_nat k + n)%N.
Proof.
  induction k as [|k IH]; intros n acc H.
  - cbn in *. f_equal. lia.
  - rewrite Nat2N.inj_succ, N.pow_succ_r' in *.
    cbn [hex_of]. rewrite parse_hex_append.
    rewrite IH by (apply N.Div0.div_lt_upper_bound; exact H).
    cbn [parse_hex].
    rewrite hex_value_digit by (apply N.mod_lt; discriminate).
    f_equal.
    pose proof (N.Div0.div_mod n 16) as Hdm.
    set (q := (n / 16)%N) in *. set (r := (n mod 16)%N) in *.
    set (p := (16 ^ N.of_nat k)%N) in *.
    rewrite Hdm. ring.
Qed.

Lemma hex_value_not_space (c : ascii) (v : N) :
  hex_value c = Some v -> is_ascii_space c = false.
Proof.
  destruct c as [[] [] [] [] [] [] [] []]; cbn; intros H;
    first [reflexivity | discriminate H].
Qed.

(** On an even number of hexadecimal digits [bytes.fromhex] reads the bytes
    that spell the same number. *)
Lemma fromhex_digits (k : nat) :
  forall (s : string) (acc v : N),
    String.length s = (2 * k)%nat ->
    parse_hex s acc = Some v ->
    exists bytes,
      fromhex s = Some bytes
      /\ List.length bytes = k
      /\ fold_left (fun a b => (256 * a + b)%N) bytes acc = v.
Proof.
  induction k as [|k IH]; intros s acc v Hlen Hp.
  - destruct s; [|discriminate Hlen]. cbn in Hp. injection Hp as <-.
    exists []. repeat split.
  - destruct s as [|c [|c2 s]]; [cbn in Hlen; lia | cbn in Hlen; lia |].
    cbn [parse_hex] in Hp.
    destruct (hex_value c) as [top|] eqn:Ec; [|discriminate Hp].
    destruct (hex_value c2) as [bot|] eqn:Ec2; [|discriminate Hp].
    assert (Hlen' : String.length s = (2 * k)%nat) by (cbn in Hlen; lia).
    destruct (IH s _ v Hlen' Hp) as (bytes & Hf & Hl & Hv).
    exists ((16 * top + bot)%N :: bytes).
    cbn [fromhex]. rewrite (hex_value_not_space c top Ec), Ec, Ec2, Hf.
    split; [reflexivity|]. split; [cbn; now rewrite Hl|].
    cbn [fold_left]. rewrite <- Hv. f_equal. lia.
Qed.

(** Text made from an identity reads back as that identity. *)
Lemma ObjectId_str (o : oid) : (o < 16 ^ 24)%N -> ObjectId (str o) = Some o.
Proof.
  intros H. unfold ObjectId, str.
  rewrite hex_of_length, Nat.eqb_refl.
  destruct (fromhex_digits 12 (hex_of 24 o) 0 o (hex_of_length 24 o))
    as (bytes & Hf & Hl & Hv).
  - rewrite (parse_hex_of 24 o 0 H). reflexivity.
  - rewrite Hf. cbn [option_map]. unfold of_bytes, bytes_value.
    rewrite Hl, Hv. reflexivity.
Qed.


(** Twenty-four hexadecimal digits are read as the number they spell. *)
Lemma ObjectId_digits (text : string) (v : N) :
  String.length text = 24%nat -> parse_hex text 0 = Some v ->
  ObjectId text = Some v.
Proof.
  intros Hlen Hp. unfold ObjectId. rewrite Hlen. cbn [Nat.eqb].
  destruct (fromhex_digits 12 text 0 v Hlen Hp) as (bytes & Hf & Hl & Hv).
  rewrite Hf. cbn [option_map]. unfold of_bytes, bytes_value.
  rewrite Hl, Hv. reflexivity.
Qed.



(** Twenty-four hexadecimal digits are accepted, as a twelve-byte identity. *)
Lemma hex_digits_parse (s : string) :
  Wording.all_chars Wording.is_hex_digit s = true ->
  forall acc, exists v,
    parse_hex s acc = Some v
    /\ (v < (acc + 1) * 16 ^ N.of_nat (String.length s))%N.
Proof.
  induction s as [|c s IH]; intros H acc.
  - exists acc. cbn. split; [reflexivity|lia].
  - cbn [Wording.all_chars] in H. apply andb_true_iff in H. destruct H as [Hc Hs].
    unfold Wording.is_hex_digit in Hc. cbn [parse_hex].
    destruct (hex_value c) as [d|] eqn:Ec; [|discriminate Hc].
    assert (Hd : (d < 16)%N).
    { revert Ec. unfold hex_value, Py.between, Py.code.
      destruct ((48 <=? N_of_ascii c) && (N_of_ascii c <=? 57))%N eqn:E1.
      - apply andb_true_iff in E1. destruct E1 as [A B].
        apply N.leb_le in A, B. intros [= <-]. lia.
      - destruct ((97 <=? N_of_ascii c) && (N_of_ascii c <=? 102))%N eqn:E2.
        + apply andb_true_iff in E2. destruct E2 as [A B].
          apply N.leb_le in A, B. intros [= <-]. lia.
        + destruct ((65 <=? N_of_ascii c) && (N_of_ascii c <=? 70))%N eqn:E3;
            [|discriminate].
          apply andb_true_iff in E3. destruct E3 as [A B].
          apply N.leb_le in A, B. intros [= <-]. lia. }
    destruct (IH Hs (16 * acc + d)%N) as (v & Hv & Hb).
    exists v. split; [exact Hv|].
    cbn [String.length]. rewrite Nat2N.inj_succ, N.pow_succ_r'.
    eapply N.lt_le_trans; [exact Hb|].
    replace ((acc + 1) * (16 * 16 ^ N.of_nat (String.length s)))%N
      with ((16 * acc + 16) * 16 ^ N.of_nat (String.length s))%N by ring.
    apply N.mul_le_mono_r. lia.
Qed.

Lemma ObjectId_of_hex_digits (text : string) :
  Wording.twenty_four_hex_digits text = true ->
  exists o, ObjectId text = Some o /\ (o < 256 ^ 12)%N.
Proof.
  unfold Wording.twenty_four_hex_digits. intros H.
  apply andb_true_iff in H. destruct H as [Hl Hc].
  apply Nat.eqb_eq in Hl.
  destruct (hex_digits_parse text Hc 0%N) as (v & Hv & Hb).
  exists v. split; [exact (ObjectId_digits text v Hl Hv)|].
  rewrite Hl in Hb. exact Hb.
Qed.

Example ObjectId_too_short : ObjectId "abc" = None.
Proof. reflexivity. Qed.

Example fromhex_skips_whitespace :
  fromhex Sample.spaced_zeros = Some [0; 0; 0; 0; 0; 0; 0; 0]%N
  /\ fromhex "0 0000000000000000000000" = None
  /\ fromhex "00000000000000000000000 " = None
  /\ fromhex "                        " = Some [].
Proof. repeat split. Qed.

(** Eight bytes: accepted, and not a twelve-byte identity. *)
Example ObjectId_spaced_zeros :
  Wording.twenty_four_hex_digits Sample.spaced_zeros = false
  /\ ObjectId Sample.spaced_zeros = Some (9 * 256 ^ 12)%N.
Proof. split; reflexivity. Qed.

Example ObjectId_upper_case :
  ObjectId "0000000000000000000000FF" = Some 255%N.
Proof. reflexivity. Qed.

End Identities.

(** * Outcomes of create and cancel *)

Section Outcomes.

Import Store Main Wording.
Local Open Scope list_scope.

Lemma by_id_true (o : Bson.oid) (d : document) : by_id o d = true <-> _id d = o.
Proof. unfold by_id. apply N.eqb_eq. Qed.

Lemma find_one_first (q : document -> bool) (pre post : collection) (x : document) :
  (forall y, In y pre -> q y = false) -> q x = true ->
  find_one q (pre ++ x :: post) = Some x.
Proof.
  intros Hpre Hx. induction pre as [|y pre IH]; cbn.
  - now rewrite Hx.
  - rewrite (Hpre y (or_introl eq_refl)). apply IH.
    intros z Hz. apply Hpre. now right.
Qed.

Lemma existsb_false_forall (q : document -> bool) (db : collection) :
  existsb q db = false -> forall y, In y db -> q y = false.
Proof.
  intros H y Hy. destruct (q y) eqn:E; [|reflexivity].
  assert (existsb q db = true) by (apply existsb_exists; eauto). congruence.
Qed.

(** Creation answers with the stored document when the slot is free and the
    driver's identity is a fresh twelve-byte one. *)
Lemma create_appointment_returns (body : AppointmentIn.t) (new_id : Bson.oid)
    (db : collection) :
  available (check_availability (AppointmentIn.barber_id body)
               (AppointmentIn.start_time body)
               (AppointmentIn.duration_min body) db) = true ->
  existsb (by_id new_id) db = false ->
  (new_id < 16 ^ 24)%N ->
  create_appointment body new_id db
  = (Return (Some (mkser (Bson.str new_id) (booked body))),
     (db ++ [mkdoc new_id (booked body)])%list).
Proof.
  intros Ha Hfresh Hid.
  rewrite check_availability_unfold in Ha; cbn [available] in Ha.
  rewrite create_appointment_unfold; cbn zeta.
  destruct (find_one _ db); [discriminate Ha|].
  unfold create_document, insert_one. rewrite Hfresh.
  rewrite (ObjectId_str new_id Hid).
  rewrite (find_one_first (by_id new_id) db [] (mkdoc new_id (booked body))).
  - reflexivity.
  - now apply existsb_false_forall.
  - apply by_id_true. reflexivity.
Qed.

Lemma update_one_absent (q : document -> bool) (sets : list assignment)
    (db : collection) :
  find_one q db = None -> update_one q sets db = (mkres 0 0, db).
Proof.
  induction db as [|d db IH]; cbn; [reflexivity|].
  destruct (q d); [discriminate|]. intros H. now rewrite (IH H).
Qed.

Lemma update_one_present (q : document -> bool) (sets : list assignment)
    (db : collection) :
  forall d, find_one q db = Some d ->
    exists pre post,
      db = (pre ++ d :: post)%list
      /\ (forall x, In x pre -> q x = false)
      /\ update_one q sets db
         = if forallb (holds (fields d)) sets then (mkres 1 0, db)
           else (mkres 1 1,
                 (pre ++ mkdoc (_id d) (fold_left assign sets (fields d)) :: post)%list).
Proof.
  induction db as [|x db IH]; cbn; [discriminate|]. intros d H.
  destruct (q x) eqn:Eq.
  - injection H as ->. exists [], db. cbn.
    split; [reflexivity|]. split; [intros ? []|]. reflexivity.
  - destruct (IH d H) as (pre & post & Hdb & Hpre & Hup).
    exists (x :: pre), post. rewrite Hup.
    split; [cbn; now rewrite <- Hdb|].
    split; [intros y [<-|Hy]; auto|].
    destruct (forallb _ sets); reflexivity.
Qed.

Lemma cancel_sets_hold (now : Z) (a : Appointment.t) :
  forallb (holds a) [SetStatus "canceled"; SetUpdatedAt now] = true
  <-> Appointment.status a = "canceled" /\ Appointment.updated_at a = Some now.
Proof.
  cbn. rewrite andb_true_r, andb_true_iff, String.eqb_eq.
  destruct (Appointment.updated_at a) as [t|].
  - rewrite Z.eqb_eq. split; intros [H1 H2]; split; congruence.
  - split; intros [H1 H2]; discriminate.
Qed.

(** The slip behind the repeated cancel: a document the update leaves as it
    is counts as not modified, and the handler reports it as not found. *)
Lemma cancel_unchanged_reports_not_found (appointment_id : string) (now : Z)
    (db : collection) (oid : Bson.oid) (d : document) :
  Bson.ObjectId appointment_id = Some oid ->
  find_one (by_id oid) db = Some d ->
  Appointment.status (fields d) = "canceled" ->
  Appointment.updated_at (fields d) = Some now ->
  cancel_appointment appointment_id now db = (Raise NotFound, db).
Proof.
  intros Hid Hd Hs Hu. unfold cancel_appointment. rewrite Hid.
  destruct (update_one_present (by_id oid)
              [SetStatus "canceled"; SetUpdatedAt now] db d Hd)
    as (pre & post & _ & _ & Hup).
  rewrite (proj2 (cancel_sets_hold now (fields d)) (conj Hs Hu)) in Hup.
  rewrite Hup. reflexivity.
Qed.




(** Text of 24 characters that is not 24 hexadecimal digits: accepted, and
    answered with the 404. *)
Example cancel_spaced_zeros :
  cancel_appointment Sample.spaced_zeros 1000 Sample.booked_10
  = (Raise NotFound, Sample.booked_10).
Proof. reflexivity. Qed.

(** C10. The code at the failing input: an appointment is canceled at
    instant 1000 and the cancel is repeated with the clock still reading
    1000. The first call succeeds; the second finds the document, changes
    nothing, and answers 404 "Appointment not found" although the
    appointment exists. With a later clock reading the repeat succeeds. *)
Theorem cancel_again_same_instant_is_not_found :
  cancel_appointment (Bson.str 1%N) 1000 Sample.booked_10
  = (Return (Some (mkser (Bson.str 1%N)
                     (Sample.appt "B" (Sample.at_ 10 0) 30 "canceled" (Some 1000)))),
     Sample.canceled_10)
  /\ find_one (by_id 1%N) Sample.canceled_10
     = Some (mkdoc 1%N (Sample.appt "B" (Sample.at_ 10 0) 30 "canceled" (Some 1000)))
  /\ cancel_appointment (Bson.str 1%N) 1000 Sample.canceled_10
     = (Raise (HTTPException 404 "Appointment not found"), Sample.canceled_10)
  /\ fst (cancel_appointment (Bson.str 1%N) 1001 Sample.canceled_10)
     = Return (Some (mkser (Bson.str 1%N)
                       (Sample.appt "B" (Sample.at_ 10 0) 30 "canceled" (Some 1001)))).
Proof. repeat split. Qed.

(** C7. The code at the failing input: durations of 1 and of 500 minutes lie
    outside the schema's bounds, and creation persists both. *)
Theorem create_persists_out_of_bounds_duration :
  Appointment.duration_in_bounds 1 = false
  /\ create_appointment (Sample.request "B" (Sample.at_ 9 0) 1) 7%N []
     = (Return (Some (mkser (Bson.str 7%N)
                        (booked (Sample.request "B" (Sample.at_ 9 0) 1)))),
        [mkdoc 7%N (booked (Sample.request "B" (Sample.at_ 9 0) 1))])
  /\ Appointment.duration_in_bounds 500 = false
  /\ snd (create_appointment (Sample.request "B" (Sample.at_ 11 0) 500) 7%N
            Sample.booked_10)
     = Sample.booked_10 ++ [mkdoc 7%N (booked (Sample.request "B" (Sample.at_ 11 0) 500))]
  /\ Appointment.duration_min (booked (Sample.request "B" (Sample.at_ 11 0) 500)) = 500.
Proof. repeat split. Qed.

End Outcomes.

(** * Privacy masking *)

Section MaskName.

Import Py Masking Wording.
Local Open Scope list_scope.

Lemma len_le_2 (p : string) : (len p <=? 2) = (String.length p <=? 2)%nat.
Proof.
  unfold len. destruct (Z.leb_spec (Z.of_nat (String.length p)) 2);
    destruct (Nat.leb_spec (String.length p) 2); try reflexivity; lia.
Qed.

Lemma mask_step_token (acc : list string) (p : string) :
  truthy p = true -> mask_step (Some acc) p = Some (acc ++ [mask_token p]).
Proof.
  destruct p as [|c t]; [discriminate|]. intros _.
  unfold mask_step, mask_token. cbn [String.get].
  rewrite len_le_2. destruct (String.length (String c t) <=? 2)%nat; reflexivity.
Qed.

(** The loop never raises on truthy parts, and builds the list of their masks. *)
Lemma mask_loop (parts : list string) :
  forall acc,
    Forall (fun p => truthy p = true) parts ->
    fold_left mask_step parts (Some acc) = Some (acc ++ map mask_token parts).
Proof.
  induction parts as [|p parts IH]; intros acc H; cbn [fold_left map].
  - now rewrite app_nil_r.
  - inversion H as [|? ? Hp Hrest]; subst.
    rewrite (mask_step_token acc p Hp), (IH _ Hrest), <- app_assoc. reflexivity.
Qed.

Lemma name_parts_truthy (name : string) :
  Forall (fun p => truthy p = true) (name_parts name).
Proof.
  apply Forall_forall. intros p Hp. unfold name_parts in Hp.
  apply filter_In in Hp. tauto.
Qed.

Lemma mask_name_try_render (name : string) :
  mask_name_try name = Some (render (name_parts name)).
Proof.
  unfold mask_name_try, render.
  pose proof (name_parts_truthy name) as H.
  destruct (name_parts name) as [|p parts] eqn:E; [reflexivity|].
  rewrite (mask_loop (p :: parts) [] H). reflexivity.
Qed.

Lemma mask_name_render (name : string) :
  mask_name name = render (name_parts name).
Proof. unfold mask_name. now rewrite mask_name_try_render. Qed.

Lemma split_by_nonempty (sep : ascii -> bool) (s : string) : split_by sep s <> [].
Proof.
  destruct s as [|c t]; cbn; [discriminate|].
  destruct (sep c); [discriminate|]. destruct (split_by sep t); discriminate.
Qed.

Lemma split_by_pieces (sep : ascii -> bool) (s : string) :
  Forall (fun p => all_chars (fun c => negb (sep c)) p = true) (split_by sep s).
Proof.
  induction s as [|c t IH]; cbn.
  - repeat constructor.
  - destruct (sep c) eqn:E; [constructor; [reflexivity|exact IH]|].
    destruct (split_by sep t) as [|p ps]; [repeat constructor; cbn; now rewrite E|].
    inversion IH as [|? ? Hp Hps]; subst.
    constructor; [cbn; now rewrite E, Hp|exact Hps].
Qed.

(** Every part is non-empty and holds no space. *)
Lemma name_parts_space_free (name : string) :
  Forall (fun p => truthy p = true
                   /\ all_chars (fun c => negb (Ascii.eqb " " c)) p = true)
         (name_parts name).
Proof.
  apply Forall_forall. intros p Hp. unfold name_parts in Hp.
  apply filter_In in Hp. destruct Hp as [Hin Ht]. split; [exact Ht|].
  pose proof (split_by_pieces (Ascii.eqb " ") (strip name)) as H.
  rewrite Forall_forall in H. now apply H.
Qed.

End MaskName.

Section StripAndSplit.

Import Py Masking Wording.
Local Open Scope list_scope.

Variable sep : ascii -> bool.


Lemma rstrip_keeps (c : ascii) (t : string) :
  isspace c = false -> rstrip (String c t) = String c (rstrip t).
Proof. intros H. cbn [rstrip]. rewrite H. destruct (rstrip t); reflexivity. Qed.





End StripAndSplit.

Section MaskNameWording.

Import Py Masking Wording.
Local Open Scope list_scope.






End MaskNameWording.

Section MaskingChangesInput.

Import Py Masking Wording.
Local Open Scope list_scope.

Lemma split_by_at_separator (sep : ascii -> bool) (c : ascii) (a b : string) :
  sep c = true ->
  split_by sep (a ++ String c b)%string = split_by sep a ++ split_by sep b.
Proof.
  intros Hc. induction a as [|x a IH]; cbn [append split_by].
  - now rewrite Hc.
  - rewrite IH. destruct (sep x); [reflexivity|].
    pose proof (split_by_nonempty sep a) as Hne.
    destruct (split_by sep a); [contradiction|reflexivity].
Qed.

Lemma split_whitespace_join (ms : list string) (p : string) :
  In p (split_whitespace (join " " ms)) ->
  exists m, In m ms /\ In p (split_whitespace m).
Proof.
  unfold join. induction ms as [|m ms IH]; cbn [String.concat].
  - intros [].
  - destruct ms as [|m' ms].
    + intros H. exists m. split; [now left|exact H].
    + change (m ++ " " ++ String.concat " " (m' :: ms))%string
        with (m ++ String " " (String.concat " " (m' :: ms)))%string.
      unfold split_whitespace in *.
      rewrite (split_by_at_separator isspace " " m _ eq_refl), filter_app.
      intros H. apply in_app_or in H. destruct H as [H|H].
      * exists m. split; [now left|exact H].
      * destruct (IH H) as [x [Hx Hp]]. exists x. split; [now right|exact Hp].
Qed.

Lemma star_pieces (c : ascii) (stars p : string) :
  split_by isspace stars = [stars] ->
  all_chars isalpha stars = false ->
  In p (split_whitespace (String c stars)) -> all_chars isalpha p = false.
Proof.
  intros Hs Ha. unfold split_whitespace. cbn [split_by]. rewrite Hs.
  destruct (isspace c); cbn [filter truthy].
  - destruct stars; cbn [filter truthy]; intros H.
    + destruct H.
    + destruct H as [<-|[]]. exact Ha.
  - intros [<-|[]]. cbn [all_chars]. rewrite Ha. apply andb_false_r.
Qed.

Lemma masked_pieces (q p : string) :
  truthy q = true ->
  In p (split_whitespace (mask_token q)) -> all_chars isalpha p = false.
Proof.
  destruct q as [|c t]; [discriminate|]. intros _. unfold mask_token.
  destruct (String.length (String c t) <=? 2)%nat;
    apply star_pieces; reflexivity.
Qed.

Lemma mask_name_not_identity (name : string) :
  has_alphabetic_token name -> mask_name name <> name.
Proof.
  intros [p [Hp Ha]] E. rewrite mask_name_render in E.
  pose proof (name_parts_truthy name) as Ht.
  destruct (name_parts name) as [|q qs] eqn:Eparts.
  - cbn [render] in E. rewrite <- E in Eparts. discriminate Eparts.
  - unfold render in E. rewrite <- E in Hp.
    apply split_whitespace_join in Hp. destruct Hp as [m [Hm Hp]].
    apply in_map_iff in Hm. destruct Hm as [x [<- Hx]].
    rewrite Forall_forall in Ht.
    rewrite (masked_pieces x p (Ht x Hx) Hp) in Ha. discriminate Ha.
Qed.

Lemma list_ascii_append (a b : string) :
  list_ascii_of_string (a ++ b)%string
  = list_ascii_of_string a ++ list_ascii_of_string b.
Proof. induction a as [|c a IH]; cbn; [reflexivity|now rewrite IH]. Qed.

Lemma length_of_list_ascii (l : list ascii) :
  String.length (string_of_list_ascii l) = List.length l.
Proof. induction l; cbn; auto. Qed.

Lemma length_list_ascii (s : string) :
  List.length (list_ascii_of_string s) = String.length s.
Proof. induction s; cbn; auto. Qed.

Lemma all_chars_forallb (f : ascii -> bool) (s : string) :
  all_chars f s = forallb f (list_ascii_of_string s).
Proof. induction s as [|c s IH]; cbn; [reflexivity|now rewrite IH]. Qed.

Lemma filter_all (f : ascii -> bool) (l : list ascii) :
  forallb f l = true -> filter f l = l.
Proof.
  induction l as [|c l IH]; cbn; [reflexivity|].
  intros H. apply andb_true_iff in H. destruct H as [Hc Hl].
  now rewrite Hc, (IH Hl).
Qed.

Lemma forallb_skipn (f : ascii -> bool) (n : nat) :
  forall l, forallb f l = true -> forallb f (skipn n l) = true.
Proof.
  induction n as [|n IH]; intros l H; [exact H|].
  destruct l as [|c l]; [reflexivity|]. cbn in *.
  apply andb_true_iff in H. now apply IH.
Qed.

Lemma forallb_filter (f : ascii -> bool) (l : list ascii) :
  forallb f (filter f l) = true.
Proof.
  induction l as [|c l IH]; cbn; [reflexivity|].
  destruct (f c) eqn:E; cbn; [now rewrite E|exact IH].
Qed.

Lemma mask_phone_long (phone : string) :
  (4 <= count_digits phone)%nat ->
  mask_phone phone
  = ("***-***-"
     ++ string_of_list_ascii
          (last4_of (filter isdigit (list_ascii_of_string phone))))%string.
Proof.
  unfold count_digits, mask_phone. intros H.
  destruct (Z.ltb_spec (Z.of_nat (List.length
              (filter isdigit (list_ascii_of_string phone)))) 4); [lia|reflexivity].
Qed.

(** C9, as stated, fails: a phone string that already has the masked shape
    is returned as it is. *)
Lemma mask_phone_masked_is_fixed :
  ~ (forall phone : string,
        (4 <= count_digits phone)%nat -> mask_phone phone <> phone).
Proof.
  intros H. apply (H "***-***-1234"); [|reflexivity].
  vm_compute. repeat constructor.
Qed.

(** C9, amended. Neither function raises (the body of mask_name completes
    for every input). For every name with at least one alphabetic token,
    mask_name returns a string other than the name. For every phone string
    with at least 4 digit characters, mask_phone returns the phone string
    itself exactly when it already is "***-***-" followed by four digits,
    and a different string otherwise. *)
Theorem masking_changes_its_input :
  forall (name phone : string),
    has_alphabetic_token name ->
    (4 <= count_digits phone)%nat ->
    mask_name_try name = Some (mask_name name)
    /\ mask_name name <> name
    /\ (mask_phone phone = phone
        <-> exists d, phone = ("***-***-" ++ d)%string
                      /\ String.length d = 4%nat
                      /\ all_chars isdigit d = true).
Proof.
  intros name phone Hname Hphone. split; [|split].
  - rewrite mask_name_try_render, mask_name_render. reflexivity.
  - now apply mask_name_not_identity.
  - split.
    + intros E. rewrite (mask_phone_long phone Hphone) in E.
      exists (string_of_list_ascii
                (last4_of (filter isdigit (list_ascii_of_string phone)))).
      split; [now symmetry|]. split.
      * rewrite length_of_list_ascii. unfold last4_of.
        rewrite length_skipn. unfold count_digits in Hphone. lia.
      * rewrite all_chars_forallb, list_ascii_of_string_of_list_ascii.
        apply forallb_skipn, forallb_filter.
    + intros [d (-> & Hlen & Hd)].
      rewrite mask_phone_long by exact Hphone.
      rewrite list_ascii_append, filter_app.
      rewrite all_chars_forallb in Hd. rewrite (filter_all isdigit _ Hd).
      change (filter isdigit (list_ascii_of_string "***-***-")) with (@nil ascii).
      cbn [app]. unfold last4_of.
      rewrite length_list_ascii, Hlen. cbn [Nat.sub skipn].
      now rewrite string_of_list_ascii_of_string.
Qed.

Lemma masking_changes_its_input_witness :
  has_alphabetic_token "Jo Smith"
  /\ (4 <= count_digits "555-123-4567")%nat
  /\ mask_name "Jo Smith" <> "Jo Smith".
Proof.
  assert (Hn : has_alphabetic_token "Jo Smith").
  { exists "Jo"%string. split; [left; reflexivity|reflexivity]. }
  assert (Hp : (4 <= count_digits "555-123-4567")%nat).
  { vm_compute. repeat constructor. }
  split; [exact Hn|]. split; [exact Hp|].
  exact (proj1 (proj2 (masking_changes_its_input "Jo Smith" "555-123-4567" Hn Hp))).
Defined.

End MaskingChangesInput.

(** The spec's example: [09:00, 09:30) is created and canceled, after which
    [09:00, 09:45) for the same barber is created as well. *)
Example canceled_slot_is_ignored :
  Wording.run
    [Wording.Create (Sample.request "B" (Sample.at_ 9 0) 30) 1%N;
     Wording.Cancel (Bson.str 1%N) 1000;
     Wording.Create (Sample.request "B" (Sample.at_ 9 0) 45) 2%N] []
  = [Store.mkdoc 1%N
       (Wording.canceled_at 1000
          (Wording.booked (Sample.request "B" (Sample.at_ 9 0) 30)));
     Store.mkdoc 2%N (Wording.booked (Sample.request "B" (Sample.at_ 9 0) 45))].
Proof. reflexivity. Qed.

(** * How create, cancel and check compose *)

Section Composition.

Import Store Main Wording Booking.
Local Open Scope list_scope.

Lemma find_one_app (q : document -> bool) (l1 l2 : collection) :
  find_one q (l1 ++ l2)
  = match find_one q l1 with
    | Some x => Some x
    | None => find_one q l2
    end.
Proof.
  unfold find_one. induction l1 as [|x l1 IH]; cbn; [reflexivity|].
  destruct (q x); [reflexivity|exact IH].
Qed.

(** What any cancel leaves behind when a document carries the identity: that
    document, canceled at [now], in its place. *)
Lemma cancel_store (appointment_id : string) (now : Z) (db : collection)
    (oid : Bson.oid) (d : document) :
  Bson.ObjectId appointment_id = Some oid ->
  find_one (by_id oid) db = Some d ->
  exists pre post,
    db = pre ++ d :: post
    /\ (forall x, In x pre -> _id x <> oid)
    /\ snd (cancel_appointment appointment_id now db)
       = pre ++ mkdoc oid (canceled_at now (fields d)) :: post.
Proof.
  intros Hid Hd. rewrite cancel_appointment_snd, Hid.
  destruct (update_one_present (by_id oid)
              [SetStatus "canceled"; SetUpdatedAt now] db d Hd)
    as (pre & post & Hdb & Hpre & Hup).
  assert (Ho : _id d = oid) by (apply find_some in Hd; now apply by_id_true).
  exists pre, post. split; [exact Hdb|]. split.
  - intros x Hx Hxo. apply by_id_true in Hxo.
    rewrite (Hpre x Hx) in Hxo. discriminate.
  - rewrite Hup.
    destruct (forallb _ _) eqn:E; cbn [snd].
    + apply cancel_sets_hold in E. destruct E as [E1 E2].
      rewrite Hdb at 1. do 2 f_equal.
      destruct d as [i a]. cbn in *. subst i. f_equal.
      destruct a. cbn in *. subst. reflexivity.
    + rewrite Ho. reflexivity.
Qed.

Lemma cancel_store_absent (appointment_id : string) (now : Z) (db : collection)
    (oid : Bson.oid) :
  Bson.ObjectId appointment_id = Some oid ->
  find_one (by_id oid) db = None ->
  snd (cancel_appointment appointment_id now db) = db.
Proof.
  intros Hid Hd. rewrite cancel_appointment_snd, Hid.
  now rewrite (update_one_absent _ _ db Hd).
Qed.

Lemma canceled_never_conflicts (barber : string) (start end_ now : Z)
    (i : Bson.oid) (a : Appointment.t) :
  ~ conflicts barber start end_ (mkdoc i (canceled_at now a)).
Proof. intros (_ & Hs & _). apply Hs. reflexivity. Qed.

Lemma cancel_conflicts_come_from_before (appointment_id : string) (now : Z)
    (db : collection) (barber : string) (start end_ : Z) (x : document) :
  In x (snd (cancel_appointment appointment_id now db)) ->
  conflicts barber start end_ x ->
  In x db.
Proof.
  intros Hx Hc. rewrite cancel_appointment_snd in Hx.
  destruct (Bson.ObjectId appointment_id) as [oid|] eqn:Hid; [|exact Hx].
  destruct (find_one (by_id oid) db) as [d|] eqn:Hd.
  - destruct (cancel_store appointment_id now db oid d Hid Hd)
      as (pre & post & Hdb & _ & Hsnd).
    rewrite cancel_appointment_snd, Hid in Hsnd. rewrite Hsnd in Hx.
    rewrite Hdb. apply in_app_or in Hx. apply in_or_app.
    destruct Hx as [Hx|[Hx|Hx]]; [now left| |right; now right].
    subst x. exfalso. now apply canceled_never_conflicts in Hc.
  - now rewrite (update_one_absent _ _ db Hd) in Hx.
Qed.

(** X1. A cancel never takes availability away: a slot that was available
    before any cancel request is available after it. *)
Theorem cancel_keeps_availability :
  forall (appointment_id : string) (now : Z) (db : collection)
         (barber : string) (start dur : Z),
    available (check_availability barber start dur db) = true ->
    available (check_availability barber start dur
                 (snd (cancel_appointment appointment_id now db))) = true.
Proof.
  intros appointment_id now db barber start dur H.
  apply available_iff. apply available_iff in H.
  intros [x [Hx Hc]]. apply H. exists x. split; [|exact Hc].
  exact (cancel_conflicts_come_from_before _ _ _ _ _ _ x Hx Hc).
Qed.

Lemma cancel_keeps_availability_witness :
  available (check_availability "B" (Sample.at_ 11 0) 30 Sample.booked_10) = true
  /\ available (check_availability "B" (Sample.at_ 11 0) 30
                  (snd (cancel_appointment (Bson.str 1%N) 1000 Sample.booked_10)))
     = true.
Proof.
  split; [reflexivity|].
  exact (cancel_keeps_availability (Bson.str 1%N) 1000 Sample.booked_10
           "B" (Sample.at_ 11 0) 30 eq_refl).
Defined.



Lemma create_store_free (body : AppointmentIn.t) (new_id : Bson.oid)
    (db : collection) :
  available (check_availability (AppointmentIn.barber_id body)
               (AppointmentIn.start_time body)
               (AppointmentIn.duration_min body) db) = true ->
  existsb (by_id new_id) db = false ->
  snd (create_appointment body new_id db) = db ++ [mkdoc new_id (booked body)].
Proof.
  intros Ha Hfresh. rewrite create_appointment_snd, Hfresh.
  rewrite check_availability_unfold in Ha; cbn [available] in Ha.
  destruct (find_one _ db); [discriminate Ha|reflexivity].
Qed.

(** X3. After a successful create the same slot is taken when the duration
    is positive, and still available when the duration is 0 or negative: the
    new appointment then does not conflict with its own interval. *)
Theorem create_then_same_slot :
  forall (body : AppointmentIn.t) (new_id : Bson.oid) (db : collection),
    available (check_availability (AppointmentIn.barber_id body)
                 (AppointmentIn.start_time body)
                 (AppointmentIn.duration_min body) db) = true ->
    existsb (by_id new_id) db = false ->
    available (check_availability (AppointmentIn.barber_id body)
                 (AppointmentIn.start_time body)
                 (AppointmentIn.duration_min body)
                 (snd (create_appointment body new_id db)))
    = (AppointmentIn.duration_min body <=? 0).
Proof.
  intros body new_id db Ha Hfresh.
  rewrite (create_store_free body new_id db Ha Hfresh).
  rewrite check_availability_unfold in *; cbn [available] in *.
  rewrite find_one_app.
  destruct (find_one _ db); [discriminate Ha|].
  unfold find_one; cbn [find]. unfold overlap_filter at 1; cbn.
  rewrite String.eqb_refl, Z.gtb_ltb. cbn [andb negb orb].
  unfold minutes.
  destruct (Z.ltb_spec (AppointmentIn.start_time body)
              (AppointmentIn.start_time body
               + AppointmentIn.duration_min body * 60000));
    destruct (Z.leb_spec (AppointmentIn.duration_min body) 0);
    cbn; try reflexivity; lia.
Qed.

Lemma create_then_same_slot_witness :
  available (check_availability "B" (Sample.at_ 11 0) 0 Sample.booked_10) = true
  /\ existsb (by_id 2%N) Sample.booked_10 = false
  /\ available (check_availability "B" (Sample.at_ 11 0) 0
                  (snd (create_appointment (Sample.request "B" (Sample.at_ 11 0) 0)
                          2%N Sample.booked_10)))
     = true.
Proof.
  split; [reflexivity|]. split; [reflexivity|].
  exact (create_then_same_slot (Sample.request "B" (Sample.at_ 11 0) 0) 2%N
           Sample.booked_10 eq_refl eq_refl).
Defined.

(** X4. Barbers are independent: creating an appointment for another barber,
    or cancelling an appointment of another barber, leaves the answer of the
    availability check for this barber unchanged. *)
Theorem other_barbers_do_not_interfere :
  forall (barber : string) (start dur : Z) (db : collection),
    (forall (body : AppointmentIn.t) (new_id : Bson.oid),
        AppointmentIn.barber_id body <> barber ->
        available (check_availability barber start dur
                     (snd (create_appointment body new_id db)))
        = available (check_availability barber start dur db))
    /\ (forall (appointment_id : string) (now : Z),
          (forall oid d, Bson.ObjectId appointment_id = Some oid ->
                         find_one (by_id oid) db = Some d ->
                         Appointment.barber_id (fields d) <> barber) ->
          available (check_availability barber start dur
                       (snd (cancel_appointment appointment_id now db)))
          = available (check_availability barber start dur db)).
Proof.
  intros barber start dur db. split.
  - intros body new_id Hb. rewrite create_appointment_snd.
    destruct (find_one _ db); [reflexivity|].
    destruct (existsb _ db); [reflexivity|].
    rewrite !check_availability_unfold; cbn [available]. rewrite find_one_app.
    destruct (find_one _ db); [reflexivity|].
    unfold find_one; cbn [find]. unfold overlap_filter at 1; cbn.
    apply String.eqb_neq in Hb. now rewrite Hb.
  - intros appointment_id now Hb.
    destruct (Bson.ObjectId appointment_id) as [oid|] eqn:Hid;
      [|now rewrite cancel_appointment_snd, Hid].
    destruct (find_one (by_id oid) db) as [d|] eqn:Hd;
      [|now rewrite (cancel_store_absent _ now db oid Hid Hd)].
    destruct (cancel_store appointment_id now db oid d Hid Hd)
      as (pre & post & Hdb & _ & Hsnd).
    rewrite Hsnd. rewrite Hdb.
    rewrite !check_availability_unfold; cbn [available]. rewrite !find_one_app.
    destruct (find_one _ pre); [reflexivity|].
    unfold find_one; cbn [find]. unfold overlap_filter at 1 3; cbn.
    specialize (Hb oid d eq_refl Hd). apply String.eqb_neq in Hb.
    now rewrite Hb.
Qed.

Lemma other_barbers_do_not_interfere_witness :
  AppointmentIn.barber_id (Sample.request "A" (Sample.at_ 10 0) 30) <> "B"
  /\ available (check_availability "B" (Sample.at_ 10 15) 15
                  (snd (create_appointment (Sample.request "A" (Sample.at_ 10 0) 30)
                          2%N Sample.booked_10)))
     = available (check_availability "B" (Sample.at_ 10 15) 15 Sample.booked_10).
Proof.
  assert (H : AppointmentIn.barber_id (Sample.request "A" (Sample.at_ 10 0) 30) <> "B")
    by discriminate.
  split; [exact H|].
  exact (proj1 (other_barbers_do_not_interfere "B" (Sample.at_ 10 15) 15
                  Sample.booked_10)
           (Sample.request "A" (Sample.at_ 10 0) 30) 2%N H).
Defined.

Lemma pairs_snoc (R : document -> document -> Prop) (l : collection)
    (x : document) :
  ForallOrdPairs R l -> Forall (fun y => R y x) l -> ForallOrdPairs R (l ++ [x]).
Proof.
  induction 1 as [|a l Ha _ IH]; intros Hx; cbn.
  - repeat constructor.
  - inversion Hx as [|? ? Hax Hlx]; subst. constructor; [|now apply IH].
    apply Forall_app. split; [exact Ha|now constructor].
Qed.

Lemma pairs_replace (R : document -> document -> Prop) (d d' : document)
    (post : collection) :
  (forall y, R y d') -> (forall y, R d' y) ->
  forall pre, ForallOrdPairs R (pre ++ d :: post) ->
              ForallOrdPairs R (pre ++ d' :: post).
Proof.
  intros Hl Hr. induction pre as [|a pre IH]; cbn; intros H.
  - inversion H as [|? ? _ Hpost]; subst. constructor; [|exact Hpost].
    apply Forall_forall. intros y _. apply Hr.
  - inversion H as [|? ? Ha Hrest]; subst. constructor; [|now apply IH].
    apply Forall_app in Ha. destruct Ha as [Hpre Hd].
    inversion Hd as [|? ? _ Hpost]; subst.
    apply Forall_app. split; [exact Hpre|]. constructor; [apply Hl|exact Hpost].
Qed.

Lemma step_keeps_no_double_booking (db : collection) (r : request) :
  no_double_booking db -> no_double_booking (step db r).
Proof.
  unfold no_double_booking. intros H.
  destruct r as [body new_id|appointment_id now]; cbn [step].
  - rewrite create_appointment_snd.
    destruct (find_one _ db) eqn:E; [exact H|].
    destruct (existsb _ db); [exact H|].
    apply pairs_snoc; [exact H|]. apply Forall_forall.
    intros y Hy (Hb & Hay & _ & H1 & H2).
    rewrite find_one_None in E. specialize (E y Hy).
    assert (C : overlap_filter (AppointmentIn.barber_id body)
                  (AppointmentIn.start_time body)
                  (AppointmentIn.start_time body
                   + minutes (AppointmentIn.duration_min body)) y = true).
    { apply overlap_filter_conflicts. unfold conflicts.
      cbn in Hb, H1, H2. repeat split; try assumption; lia. }
    congruence.
  - destruct (Bson.ObjectId appointment_id) as [oid|] eqn:Hid;
      [|now rewrite cancel_appointment_snd, Hid].
    destruct (find_one (by_id oid) db) as [d|] eqn:Hd;
      [|now rewrite (cancel_store_absent _ now db oid Hid Hd)].
    destruct (cancel_store appointment_id now db oid d Hid Hd)
      as (pre & post & Hdb & _ & Hsnd).
    rewrite Hsnd. rewrite Hdb in H.
    apply (pairs_replace _ d _ post); [| |exact H].
    + intros y (_ & _ & Ha & _). apply Ha. reflexivity.
    + intros y (_ & Ha & _). apply Ha. reflexivity.
Qed.

(** X5. No double booking: create and cancel keep the collection free of
    pairs of non-canceled appointments of one barber whose intervals
    overlap, so every collection built up from the empty one by these
    requests is free of them. *)
Theorem no_double_booking_kept :
  forall (db : collection),
    no_double_booking db ->
    (forall r : request, no_double_booking (step db r))
    /\ (forall rs : list request, no_double_booking (run rs db)).
Proof.
  intros db H. split.
  - intros r. now apply step_keeps_no_double_booking.
  - intros rs. revert db H. unfold run.
    induction rs as [|r rs IH]; intros db H; [exact H|].
    cbn [fold_left]. apply IH. now apply step_keeps_no_double_booking.
Qed.

Lemma no_double_booking_kept_witness :
  no_double_booking []
  /\ no_double_booking
       (run [Create (Sample.request "B" (Sample.at_ 10 0) 30) 1%N;
             Create (Sample.request "B" (Sample.at_ 10 15) 30) 2%N;
             Cancel (Bson.str 1%N) 1000;
             Create (Sample.request "B" (Sample.at_ 10 15) 30) 3%N] []).
Proof.
  assert (H : no_double_booking []) by constructor.
  split; [exact H|].
  exact (proj2 (no_double_booking_kept [] H)
           [Create (Sample.request "B" (Sample.at_ 10 0) 30) 1%N;
            Create (Sample.request "B" (Sample.at_ 10 15) 30) 2%N;
            Cancel (Bson.str 1%N) 1000;
            Create (Sample.request "B" (Sample.at_ 10 15) 30) 3%N]).
Defined.

Lemma update_one_skip (q : document -> bool) (sets : list assignment)
    (l1 l2 : collection) :
  find_one q l1 = None ->
  update_one q sets (l1 ++ l2)
  = (fst (update_one q sets l2), l1 ++ snd (update_one q sets l2)).
Proof.
  induction l1 as [|x l1 IH]; cbn.
  - intros _. now destruct (update_one q sets l2).
  - destruct (q x); [discriminate|]. intros H. now rewrite (IH H).
Qed.

(** X6. The identity a successful create returns is the one to cancel with:
    cancelling with the returned [id] text succeeds, answers the record with
    status "canceled" and the cancel time, and leaves the collection with
    exactly that document changed. *)
Theorem created_id_cancels :
  forall (body : AppointmentIn.t) (new_id : Bson.oid) (db : collection) (now : Z),
    available (check_availability (AppointmentIn.barber_id body)
                 (AppointmentIn.start_time body)
                 (AppointmentIn.duration_min body) db) = true ->
    existsb (by_id new_id) db = false ->
    (new_id < 16 ^ 24)%N ->
    exists r,
      create_appointment body new_id db
      = (Return (Some r), db ++ [mkdoc new_id (booked body)])
      /\ Main.body r = booked body
      /\ cancel_appointment (Main.id r) now (db ++ [mkdoc new_id (booked body)])
         = (Return (Some (mkser (Main.id r) (canceled_at now (booked body)))),
            db ++ [mkdoc new_id (canceled_at now (booked body))]).
Proof.
  intros body new_id db now Ha Hfresh Hid.
  exists (mkser (Bson.str new_id) (booked body)).
  split; [now apply create_appointment_returns|]. split; [reflexivity|].
  cbn [Main.id]. unfold cancel_appointment. rewrite (ObjectId_str new_id Hid).
  assert (Hnone : find_one (by_id new_id) db = None).
  { apply find_one_None. now apply existsb_false_forall. }
  rewrite (update_one_skip _ _ db _ Hnone).
  assert (Hq : by_id new_id (mkdoc new_id (booked body)) = true)
    by (apply by_id_true; reflexivity).
  assert (Hf : forallb (holds (booked body))
                 [SetStatus "canceled"; SetUpdatedAt now] = false) by reflexivity.
  cbn [update_one fields _id]. rewrite Hq, Hf. cbn [fst snd modified_count].
  change (1 =? 0) with false. cbv iota.
  rewrite (find_one_first (by_id new_id) db []
             (mkdoc new_id (fold_left assign
                              [SetStatus "canceled"; SetUpdatedAt now] (booked body)))).
  - reflexivity.
  - now apply existsb_false_forall.
  - apply by_id_true. reflexivity.
Qed.

Lemma created_id_cancels_witness :
  available (check_availability "B" (Sample.at_ 11 0) 30 Sample.booked_10) = true
  /\ existsb (by_id 2%N) Sample.booked_10 = false
  /\ (2 < 16 ^ 24)%N
  /\ exists r,
       create_appointment (Sample.request "B" (Sample.at_ 11 0) 30) 2%N
         Sample.booked_10
       = (Return (Some r),
          Sample.booked_10
          ++ [mkdoc 2%N (booked (Sample.request "B" (Sample.at_ 11 0) 30))])
       /\ Main.body r = booked (Sample.request "B" (Sample.at_ 11 0) 30)
       /\ cancel_appointment (Main.id r) 1000
            (Sample.booked_10
             ++ [mkdoc 2%N (booked (Sample.request "B" (Sample.at_ 11 0) 30))])
          = (Return (Some (mkser (Main.id r)
                             (canceled_at 1000
                                (booked (Sample.request "B" (Sample.at_ 11 0) 30))))),
             Sample.booked_10
             ++ [mkdoc 2%N
                   (canceled_at 1000
                      (booked (Sample.request "B" (Sample.at_ 11 0) 30)))]).
Proof.
  split; [reflexivity|]. split; [reflexivity|]. split; [reflexivity|].
  exact (created_id_cancels (Sample.request "B" (Sample.at_ 11 0) 30) 2%N
           Sample.booked_10 1000 eq_refl eq_refl eq_refl).
Defined.

End Composition.

(** * The public listing *)

Section Listing.

Import Py Masking Store Main Wording.
Local Open Scope list_scope.

Lemma length_last4 (digits : list ascii) :
  (4 <= List.length digits)%nat -> List.length (last4_of digits) = 4%nat.
Proof. intros H. unfold last4_of. rewrite length_skipn. lia. Qed.

(** The digits of a masked phone number. *)
Lemma mask_phone_digits (phone : string) :
  filter isdigit (list_ascii_of_string (mask_phone phone))
  = if (count_digits phone <? 4)%nat then []
    else last4_of (filter isdigit (list_ascii_of_string phone)).
Proof.
  destruct (Nat.ltb_spec (count_digits phone) 4) as [H|H].
  - unfold mask_phone. unfold count_digits in H.
    destruct (Z.ltb_spec (Z.of_nat (List.length
                (filter isdigit (list_ascii_of_string phone)))) 4); [reflexivity|lia].
  - rewrite (mask_phone_long phone H), list_ascii_append, filter_app.
    change (filter isdigit (list_ascii_of_string "***-***-")) with (@nil ascii).
    rewrite list_ascii_of_string_of_list_ascii. cbn [app].
    apply filter_all, forallb_skipn, forallb_filter.
Qed.

(** X7. A masked phone number shows the last four digits of the input and no
    other digit, or no digit at all when the input has fewer than four; it
    is "***" or twelve characters long. *)
Theorem mask_phone_shows_last_four :
  forall phone : string,
    filter isdigit (list_ascii_of_string (mask_phone phone))
    = (if (count_digits phone <? 4)%nat then []
       else last4_of (filter isdigit (list_ascii_of_string phone)))
    /\ (count_digits (mask_phone phone) <= 4)%nat
    /\ ((count_digits phone < 4)%nat -> mask_phone phone = "***"%string)
    /\ ((4 <= count_digits phone)%nat ->
        String.length (mask_phone phone) = 12%nat
        /\ count_digits (mask_phone phone) = 4%nat).
Proof.
  intros phone. pose proof (mask_phone_digits phone) as Hd.
  split; [exact Hd|]. unfold count_digits at 1 4. rewrite Hd.
  destruct (Nat.ltb_spec (count_digits phone) 4) as [H|H].
  - split; [cbn; lia|]. split; [|lia]. intros _.
    unfold mask_phone. unfold count_digits in H.
    destruct (Z.ltb_spec (Z.of_nat (List.length
                (filter isdigit (list_ascii_of_string phone)))) 4); [reflexivity|lia].
  - pose proof (length_last4 _ H) as H4. split; [lia|]. split; [lia|].
    intros _. split; [|exact H4].
    rewrite (mask_phone_long phone H), length_append, length_of_list_ascii, H4.
    reflexivity.
Qed.

Lemma mask_phone_shows_last_four_witness :
  (4 <= count_digits "555-123-4567")%nat
  /\ String.length (mask_phone "555-123-4567") = 12%nat
  /\ count_digits (mask_phone "555-123-4567") = 4%nat.
Proof.
  assert (H : (4 <= count_digits "555-123-4567")%nat)
    by (vm_compute; repeat constructor).
  split; [exact H|].
  exact (proj2 (proj2 (proj2 (mask_phone_shows_last_four "555-123-4567"))) H).
Defined.

(** X8. Masking a masked phone number changes nothing. *)
Theorem mask_phone_idempotent :
  forall phone : string, mask_phone (mask_phone phone) = mask_phone phone.
Proof.
  intros phone.
  destruct (Nat.ltb_spec (count_digits phone) 4) as [H|H].
  - assert (E : mask_phone phone = "***"%string).
    { unfold mask_phone. unfold count_digits in H.
      destruct (Z.ltb_spec (Z.of_nat (List.length
                  (filter isdigit (list_ascii_of_string phone)))) 4);
        [reflexivity|lia]. }
    rewrite E. reflexivity.
  - pose proof (mask_phone_digits phone) as Hd.
    destruct (Nat.ltb_spec (count_digits phone) 4) as [H'|_]; [lia|].
    pose proof (length_last4 _ H) as H4.
    assert (Hc : (4 <= count_digits (mask_phone phone))%nat).
    { unfold count_digits at 1. rewrite Hd, H4. lia. }
    rewrite (mask_phone_long _ Hc), Hd. rewrite (mask_phone_long phone H).
    do 2 f_equal. unfold last4_of at 1. rewrite H4. reflexivity.
Qed.

Lemma list_appointments_map (barber_id : option string) (db : collection) :
  list_appointments barber_id db
  = map (fun d =>
           mkser (Bson.str (_id d))
             (Appointment.mk (mask_name (Appointment.customer_name (fields d)))
                (mask_phone (Appointment.customer_phone (fields d)))
                (Appointment.barber_id (fields d)) (Appointment.service_name (fields d))
                (Appointment.start_time (fields d)) (Appointment.end_time (fields d))
                (Appointment.duration_min (fields d)) None
                (Appointment.status (fields d)) (Appointment.updated_at (fields d))))
        (filter (listed_for barber_id) db).
Proof.
  unfold list_appointments, get_documents, listed_for.
  destruct barber_id as [b|]; [destruct (truthy b)|]; reflexivity.
Qed.

(** X9. The listing never carries notes and never more than four digits of a
    phone number, whatever the collection holds and whatever filter is
    given. *)
Theorem listing_hides_notes_and_phone :
  forall (barber_id : option string) (db : collection),
    Forall (fun r => Appointment.notes (body r) = None
                     /\ (count_digits (Appointment.customer_phone (body r)) <= 4)%nat)
           (list_appointments barber_id db).
Proof.
  intros barber_id db. rewrite list_appointments_map.
  apply Forall_forall. intros r Hr. apply in_map_iff in Hr.
  destruct Hr as [d [<- _]]. cbn [body Appointment.notes Appointment.customer_phone].
  split; [reflexivity|].
  apply (mask_phone_shows_last_four (Appointment.customer_phone (fields d))).
Qed.

(** X10. The listing's filter: without a barber, or with the empty string as
    barber, every stored appointment is listed; with a non-empty barber the
    listing holds exactly that barber's appointments. Either way the records
    come in storage order, one per matching document, with identity and
    schedule as stored. *)
Theorem listing_filter :
  forall (db : collection),
    list_appointments (Some EmptyString) db = list_appointments None db
    /\ map id (list_appointments None db) = map (fun d => Bson.str (_id d)) db
    /\ (forall b : string,
          b <> EmptyString ->
          map id (list_appointments (Some b) db)
          = map (fun d => Bson.str (_id d))
              (filter (fun d => (Appointment.barber_id (fields d) =? b)%string) db)
          /\ Forall (fun r => Appointment.barber_id (body r) = b)
               (list_appointments (Some b) db))
    /\ (forall barber_id : option string,
          map (fun r => (id r, Appointment.start_time (body r),
                         Appointment.end_time (body r),
                         Appointment.duration_min (body r),
                         Appointment.status (body r)))
              (list_appointments barber_id db)
          = map (fun d => (Bson.str (_id d), Appointment.start_time (fields d),
                           Appointment.end_time (fields d),
                           Appointment.duration_min (fields d),
                           Appointment.status (fields d)))
              (filter (listed_for barber_id) db)).
Proof.
  intros db. split; [reflexivity|]. split; [|split].
  - rewrite list_appointments_map, map_map. cbn [listed_for id].
    f_equal. induction db as [|d db IH]; cbn; [reflexivity|now rewrite IH].
  - intros b Hb. rewrite list_appointments_map.
    assert (E : filter (listed_for (Some b)) db
                = filter (fun d => (Appointment.barber_id (fields d) =? b)%string) db).
    { unfold listed_for. destruct b; [contradiction|reflexivity]. }
    rewrite E. split; [now rewrite map_map|].
    apply Forall_forall. intros r Hr. apply in_map_iff in Hr.
    destruct Hr as [d [<- Hd]]. apply filter_In in Hd.
    cbn. now apply String.eqb_eq.
  - intros barber_id. rewrite list_appointments_map, map_map. reflexivity.
Qed.

Lemma listing_filter_witness :
  "B"%string <> EmptyString
  /\ Forall (fun r => Appointment.barber_id (body r) = "B"%string)
       (list_appointments (Some "B"%string) Sample.booked_10).
Proof.
  assert (H : "B"%string <> EmptyString) by discriminate.
  split; [exact H|].
  exact (proj2 (proj1 (proj2 (proj2 (listing_filter Sample.booked_10))) "B"%string H)).
Defined.

End Listing.

(** * More on masked names *)

Section MaskNameShape.

Import Py Masking Wording.
Local Open Scope list_scope.

Lemma append_assoc (a b c : string) :
  ((a ++ b) ++ c)%string = (a ++ (b ++ c))%string.
Proof. induction a as [|x a IH]; cbn; [reflexivity|now rewrite IH]. Qed.

Lemma lstrip_blank (s : string) : all_chars isspace s = true -> lstrip s = EmptyString.
Proof.
  induction s as [|c t IH]; cbn; [reflexivity|].
  intros H. apply andb_true_iff in H. destruct H as [Hc Ht].
  rewrite Hc. now apply IH.
Qed.

Lemma lstrip_blank_inv (s : string) :
  all_chars isspace (lstrip s) = true -> all_chars isspace s = true.
Proof.
  induction s as [|c t IH]; cbn [lstrip]; [auto|].
  destruct (isspace c) eqn:Ec; [|auto].
  intros H. cbn. rewrite Ec. now apply IH.
Qed.

Lemma rstrip_blank_inv (s : string) :
  all_chars isspace (rstrip s) = true -> all_chars isspace s = true.
Proof.
  induction s as [|c t IH]; cbn [rstrip]; [auto|].
  destruct (rstrip t) as [|a r] eqn:Er.
  - destruct (isspace c) eqn:Ec.
    + intros _. cbn. rewrite Ec. now apply IH.
    + cbn. rewrite Ec. discriminate.
  - cbn [all_chars]. intros H. apply andb_true_iff in H. destruct H as [Hc Hr].
    rewrite Hc. now apply IH.
Qed.

Lemma all_chars_impl (f g : ascii -> bool) (s : string) :
  (forall c, f c = true -> g c = true) ->
  all_chars f s = true -> all_chars g s = true.
Proof.
  intros Hfg. induction s as [|c t IH]; cbn; [auto|].
  intros H. apply andb_true_iff in H. destruct H as [Hc Ht].
  now rewrite (Hfg c Hc), (IH Ht).
Qed.

Lemma no_pieces_all_separators (sep : ascii -> bool) (s : string) :
  filter truthy (split_by sep s) = [] -> all_chars sep s = true.
Proof.
  induction s as [|c t IH]; cbn [split_by all_chars]; [auto|].
  destruct (sep c); cbn [filter truthy andb]; [exact IH|].
  destruct (split_by sep t); cbn; discriminate.
Qed.

Lemma join_masks_head (c : ascii) (t : string) (qs : list string) :
  exists rest,
    join " " (map mask_token (String c t :: qs)) = String c (String "*" rest).
Proof.
  assert (Hm : exists r, mask_token (String c t) = String c (String "*" r)).
  { unfold mask_token.
    destruct (String.length (String c t) <=? 2)%nat; eexists; reflexivity. }
  destruct Hm as [r Hm]. unfold join. cbn [map]. rewrite Hm.
  destruct (map mask_token qs); cbn; eexists; reflexivity.
Qed.

Lemma no_parts_iff_blank (name : string) :
  name_parts name = [] <-> all_chars isspace name = true.
Proof.
  split.
  - intros Ep. unfold name_parts in Ep. apply no_pieces_all_separators in Ep.
    apply lstrip_blank_inv, rstrip_blank_inv.
    apply (all_chars_impl (Ascii.eqb " ")); [|exact Ep].
    intros c Hc. apply Ascii.eqb_eq in Hc. now subst c.
  - intros H. unfold name_parts, strip. rewrite (lstrip_blank name H). reflexivity.
Qed.

(** X11. mask_name answers "Customer" exactly for the names that consist of
    whitespace only (the empty name among them). *)
Theorem mask_name_customer_iff_blank :
  forall name : string,
    mask_name name = "Customer"%string <-> all_chars isspace name = true.
Proof.
  intros name. rewrite mask_name_render, <- no_parts_iff_blank. split.
  - intros E.
    pose proof (name_parts_truthy name) as Ht.
    destruct (name_parts name) as [|q qs] eqn:Ep; [reflexivity|].
    inversion Ht as [|? ? Hq _]; subst.
    destruct q as [|c t]; [discriminate Hq|].
    destruct (join_masks_head c t qs) as (rest & Hj).
    unfold render in E. rewrite Hj in E. discriminate E.
  - intros H. now rewrite H.
Qed.

Lemma lstrip_head (s : string) :
  lstrip s = EmptyString
  \/ exists c t, lstrip s = String c t /\ isspace c = false.
Proof.
  induction s as [|c t IH]; cbn [lstrip]; [now left|].
  destruct (isspace c) eqn:Ec; [exact IH|]. right. eauto.
Qed.

Lemma strip_head (s : string) :
  strip s = EmptyString
  \/ exists c t, strip s = String c t /\ isspace c = false.
Proof.
  unfold strip. destruct (lstrip_head s) as [E|(c & t & E & Hc)]; rewrite E.
  - now left.
  - right. rewrite (rstrip_keeps c t Hc). eauto.
Qed.

Lemma rstrip_ends_with (u : string) (x : ascii) :
  isspace x = false ->
  rstrip (u ++ String x EmptyString)%string = (u ++ String x EmptyString)%string.
Proof.
  intros Hx. induction u as [|a u IH]; cbn [append rstrip].
  - now rewrite Hx.
  - rewrite IH. destruct u; reflexivity.
Qed.

Lemma split_by_clean (sep : ascii -> bool) (m : string) :
  all_chars (fun c => negb (sep c)) m = true -> split_by sep m = [m].
Proof.
  induction m as [|c t IH]; cbn; [reflexivity|].
  intros H. apply andb_true_iff in H. destruct H as [Hc Ht].
  apply negb_true_iff in Hc. now rewrite Hc, (IH Ht).
Qed.

Lemma split_join (sep : ascii -> bool) (x : ascii) (ms : list string) :
  sep x = true -> ms <> [] ->
  Forall (fun m => all_chars (fun c => negb (sep c)) m = true) ms ->
  split_by sep (join (String x EmptyString) ms) = ms.
Proof.
  intros Hx. unfold join. induction ms as [|m ms IH]; [contradiction|].
  intros _ H. inversion H as [|? ? Hm Hms]; subst.
  cbn [String.concat]. destruct ms as [|m' ms].
  - now apply split_by_clean.
  - change (m ++ String x EmptyString ++ String.concat (String x EmptyString) (m' :: ms))%string
      with (m ++ String x (String.concat (String x EmptyString) (m' :: ms)))%string.
    rewrite (split_by_at_separator sep x m _ Hx), (split_by_clean sep m Hm).
    rewrite IH; [reflexivity|discriminate|exact Hms].
Qed.

Lemma mask_token_twice (q : string) :
  truthy q = true -> mask_token (mask_token q) = mask_token q.
Proof.
  destruct q as [|c t]; [discriminate|]. intros _. unfold mask_token at 2 3.
  destruct (String.length (String c t) <=? 2)%nat; reflexivity.
Qed.

Lemma mask_token_shape (q : string) :
  truthy q = true ->
  all_chars (fun c => negb (Ascii.eqb " " c)) q = true ->
  truthy (mask_token q) = true
  /\ all_chars (fun c => negb (Ascii.eqb " " c)) (mask_token q) = true
  /\ exists u, mask_token q = (u ++ "*")%string.
Proof.
  destruct q as [|c t]; [discriminate|]. intros _ H.
  cbn [all_chars] in H. apply andb_true_iff in H. destruct H as [Hc _].
  unfold mask_token.
  destruct (String.length (String c t) <=? 2)%nat; cbn [truthy all_chars];
    rewrite Hc; (split; [reflexivity|split; [reflexivity|]]).
  - exists (String c EmptyString). reflexivity.
  - exists (String c "**"). reflexivity.
Qed.

Lemma join_ends_with_star (ms : list string) :
  ms <> [] ->
  Forall (fun m => exists u, m = (u ++ "*")%string) ms ->
  exists u, join " " ms = (u ++ "*")%string.
Proof.
  unfold join. induction ms as [|m ms IH]; [contradiction|].
  intros _ H. inversion H as [|? ? [u Hm] Hms]; subst.
  cbn [String.concat]. destruct ms as [|m' ms].
  - eauto.
  - destruct IH as [v Hv]; [discriminate|exact Hms|].
    rewrite Hv. exists ((u ++ "*") ++ " " ++ v)%string.
    now rewrite !append_assoc.
Qed.

(** The parts of a masked name are the masks of the name's parts. *)
Lemma name_parts_of_masked (name : string) :
  name_parts name <> [] ->
  name_parts (join " " (map mask_token (name_parts name)))
  = map mask_token (name_parts name).
Proof.
  intros Hne.
  pose proof (name_parts_space_free name) as Hsf.
  set (ms := map mask_token (name_parts name)).
  assert (Hms : ms <> []).
  { unfold ms. destruct (name_parts name); [contradiction|discriminate]. }
  assert (Hshape : Forall (fun m => truthy m = true
                     /\ all_chars (fun c => negb (Ascii.eqb " " c)) m = true
                     /\ exists u, m = (u ++ "*")%string) ms).
  { unfold ms. apply Forall_forall. intros m Hm. apply in_map_iff in Hm.
    destruct Hm as [q [<- Hq]]. rewrite Forall_forall in Hsf.
    destruct (Hsf q Hq) as [H1 H2]. now apply mask_token_shape. }
  assert (Hstrip : strip (join " " ms) = join " " ms).
  { unfold strip.
    assert (Hl : lstrip (join " " ms) = join " " ms).
    { destruct (strip_head name) as [E|(c & t & E & Hc)].
      - exfalso. apply Hne. unfold name_parts. now rewrite E.
      - assert (Hs : Ascii.eqb " " c = false).
        { destruct (Ascii.eqb_spec " " c) as [<-|]; [discriminate Hc|reflexivity]. }
        unfold ms, name_parts, split_space. rewrite E. cbn [split_by]. rewrite Hs.
        pose proof (split_by_nonempty (Ascii.eqb " ") t) as Hn.
        destruct (split_by (Ascii.eqb " ") t) as [|p ps]; [contradiction|].
        cbn [filter truthy].
        destruct (join_masks_head c p (filter truthy ps)) as (rest & Hj).
        rewrite Hj. cbn [lstrip]. now rewrite Hc. }
    rewrite Hl.
    destruct (join_ends_with_star ms Hms) as [u Hu].
    { eapply Forall_impl; [|exact Hshape]. cbn. tauto. }
    rewrite Hu. now apply rstrip_ends_with. }
  unfold name_parts at 1. rewrite Hstrip. unfold split_space.
  rewrite (split_join (Ascii.eqb " ") " " ms eq_refl Hms).
  - clear -Hshape. induction Hshape as [|m l [Hm _] _ IH]; cbn; [reflexivity|].
    now rewrite Hm, IH.
  - eapply Forall_impl; [|exact Hshape]. cbn. tauto.
Qed.

(** X12. Masking a masked name changes nothing, for every name that is not
    whitespace only; the masked name has one part per part of the name. *)
Theorem mask_name_idempotent :
  forall name : string,
    all_chars isspace name = false ->
    mask_name (mask_name name) = mask_name name
    /\ name_parts (mask_name name) = map mask_token (name_parts name).
Proof.
  intros name Hb.
  assert (Hne : name_parts name <> []).
  { intros E. apply no_parts_iff_blank in E. congruence. }
  pose proof (name_parts_of_masked name Hne) as Hp.
  assert (Hr : mask_name name = join " " (map mask_token (name_parts name))).
  { rewrite mask_name_render. unfold render.
    destruct (name_parts name); [contradiction|reflexivity]. }
  split; [|now rewrite Hr].
  rewrite mask_name_render. rewrite Hr at 1. rewrite Hp. rewrite Hr.
  unfold render.
  destruct (map mask_token (name_parts name)) as [|m ms] eqn:Em.
  { destruct (name_parts name); [contradiction|discriminate]. }
  rewrite <- Em. f_equal. rewrite map_map. apply map_ext_in.
  intros q Hq. apply mask_token_twice.
  pose proof (name_parts_truthy name) as Ht. rewrite Forall_forall in Ht. auto.
Qed.

End MaskNameShape.

Lemma mask_name_idempotent_witness :
  Wording.all_chars Py.isspace "Jo Smith" = false
  /\ Masking.mask_name (Masking.mask_name "Jo Smith") = Masking.mask_name "Jo Smith".
Proof.
  split; [reflexivity|].
  exact (proj1 (mask_name_idempotent "Jo Smith" eq_refl)).
Defined.

(** * The catalog and the startup seed *)

Section CatalogFacts.

Import Catalog.
Local Open Scope list_scope.

Lemma has_id_true {A : Type} (o : Bson.oid) (d : item A) :
  has_id o d = true <-> item_id d = o.
Proof. unfold has_id. apply N.eqb_eq. Qed.

Lemma cat_find_app {A : Type} (q : item A -> bool) (l1 l2 : list (item A)) :
  find_one q (l1 ++ l2)
  = match find_one q l1 with
    | Some x => Some x
    | None => find_one q l2
    end.
Proof.
  unfold find_one. induction l1 as [|x l1 IH]; cbn; [reflexivity|].
  destruct (q x); [reflexivity|exact IH].
Qed.

Lemma cat_find_none {A : Type} (q : item A -> bool) (c : list (item A)) :
  existsb q c = false -> find_one q c = None.
Proof.
  unfold find_one. induction c as [|x c IH]; cbn; [reflexivity|].
  destruct (q x); [discriminate|exact IH].
Qed.

(** X13. Adding to the catalog (add_barber, add_service): with a fresh
    twelve-byte identity from the driver the handler answers the record as
    given under the identity's text, and the catalog listing afterwards is
    the listing before followed by that record. No field is bounded or
    checked. *)
Theorem add_then_list :
  forall (A : Type) (body : A) (new_id : Bson.oid) (c : list (item A)),
    existsb (has_id new_id) c = false ->
    (new_id < 16 ^ 24)%N ->
    add body new_id c
    = (Return (Some (Bson.str new_id, body)), c ++ [mkitem new_id body])
    /\ list_all (snd (add body new_id c))
       = list_all c ++ [Some (Bson.str new_id, body)].
Proof.
  intros A body new_id c Hfresh Hid.
  assert (E : add body new_id c
              = (Return (Some (Bson.str new_id, body)), c ++ [mkitem new_id body])).
  { unfold add, create_document. rewrite Hfresh, (ObjectId_str new_id Hid).
    rewrite cat_find_app, (cat_find_none _ c Hfresh).
    unfold find_one; cbn [find]. unfold has_id at 1; cbn [item_id].
    now rewrite N.eqb_refl. }
  split; [exact E|]. rewrite E. cbn [snd].
  unfold list_all, get_documents. now rewrite map_app.
Qed.

Lemma add_then_list_witness :
  existsb (has_id 5%N) (@nil (item Service)) = false
  /\ (5 < 16 ^ 24)%N
  /\ add (mkservice "Shave" None 0 (-1)%float) 5%N []
     = (Return (Some (Bson.str 5%N, mkservice "Shave" None 0 (-1)%float)),
        [mkitem 5%N (mkservice "Shave" None 0 (-1)%float)]).
Proof.
  split; [reflexivity|]. split; [reflexivity|].
  exact (proj1 (add_then_list Service (mkservice "Shave" None 0 (-1)%float) 5%N []
                  eq_refl eq_refl)).
Defined.

End CatalogFacts.

Section SeedBarbers.

Import Catalog.
Local Open Scope list_scope.

Variable new_id : string -> Bson.oid.

Lemma count_zero {A : Type} (q : item A -> bool) (c : list (item A)) :
  (count_documents q c =? 0) = negb (existsb q c).
Proof.
  unfold count_documents. induction c as [|d c IH]; cbn; [reflexivity|].
  destruct (q d); cbn; [|exact IH].
  destruct (Z.eqb_spec (Z.of_nat (S (List.length (filter q c)))) 0); [lia|reflexivity].
Qed.

Lemma missing_after_other (c : list (item Barber)) (n x : string) :
  x <> n ->
  missing_barber (c ++ [seeded_barber new_id n]) x = missing_barber c x.
Proof.
  intros Hx. unfold missing_barber. rewrite !count_zero, existsb_app. cbn.
  unfold named_barber at 2; cbn.
  apply not_eq_sym in Hx. apply String.eqb_neq in Hx. rewrite Hx.
  now rewrite !orb_false_r.
Qed.

Lemma seed_barbers_shape (names : list string) :
  forall c c',
    NoDup names ->
    for_each (seed_barber new_id) names c = Some c' ->
    c' = c ++ map (seeded_barber new_id) (filter (missing_barber c) names).
Proof.
  induction names as [|n names IH]; intros c c' Hnd H; cbn in H.
  - injection H as <-. cbn. now rewrite app_nil_r.
  - inversion Hnd as [|? ? Hn Hrest]; subst.
    unfold seed_barber in H. cbn [filter]. fold (missing_barber c n) in H.
    destruct (missing_barber c n) eqn:Em.
    + unfold create_document in H.
      destruct (existsb (has_id (new_id n)) c); [discriminate H|].
      rewrite (IH _ _ Hrest H). cbn [map]. rewrite <- app_assoc. cbn [app].
      do 3 f_equal. apply filter_ext_in. intros x Hx.
      apply missing_after_other. intros ->. contradiction.
    + now apply IH.
Qed.

Lemma seed_barbers_again (names : list string) (c : list (item Barber))
    (other_id : string -> Bson.oid) :
  (forall n, In n names -> missing_barber c n = false) ->
  for_each (seed_barber other_id) names c = Some c.
Proof.
  induction names as [|n names IH]; intros H; cbn; [reflexivity|].
  unfold seed_barber at 1. fold (missing_barber c n).
  rewrite (H n (or_introl eq_refl)). apply IH. intros x Hx. apply H. now right.
Qed.

Lemma seeded_names_present (names : list string) (c : list (item Barber)) (n : string) :
  In n names ->
  missing_barber
    (c ++ map (seeded_barber new_id) (filter (missing_barber c) names)) n = false.
Proof.
  intros Hn. unfold missing_barber at 1. rewrite count_zero, existsb_app.
  apply negb_false_iff, orb_true_iff.
  destruct (missing_barber c n) eqn:Em.
  - right. apply existsb_exists. exists (seeded_barber new_id n). split.
    + apply in_map, filter_In. now split.
    + unfold named_barber; cbn. apply String.eqb_refl.
  - left. unfold missing_barber in Em. rewrite count_zero in Em.
    now apply negb_false_iff in Em.
Qed.

End SeedBarbers.

Section SeedServices.

Import Catalog.
Local Open Scope list_scope.

Lemma set_haircut_twice (a : Service) : set_haircut (set_haircut a) = set_haircut a.
Proof. reflexivity. Qed.

Lemma update_by_id_twice {A : Type} (o : Bson.oid) (f : A -> A) (c : list (item A)) :
  (forall a, f (f a) = f a) ->
  update_by_id o f (update_by_id o f c) = update_by_id o f c.
Proof.
  intros Hf. induction c as [|d c IH]; cbn; [reflexivity|].
  destruct (has_id o d) eqn:E; cbn.
  - unfold has_id in *. cbn [item_id]. rewrite E. cbn [item_fields]. now rewrite Hf.
  - now rewrite E, IH.
Qed.

Lemma update_by_id_app {A : Type} (o : Bson.oid) (f : A -> A)
    (c extra : list (item A)) :
  existsb (has_id o) c = true ->
  update_by_id o f (c ++ extra) = update_by_id o f c ++ extra.
Proof.
  induction c as [|d c IH]; cbn; [discriminate|].
  destruct (has_id o d); cbn; [reflexivity|]. intros H. now rewrite (IH H).
Qed.

Lemma found_has_id {A : Type} (q : item A -> bool) (c : list (item A)) (e : item A) :
  find_one q c = Some e -> existsb (has_id (item_id e)) c = true.
Proof.
  intros H. apply find_some in H. apply existsb_exists. exists e.
  split; [tauto|]. apply has_id_true. reflexivity.
Qed.

Lemma find_named_after_update (n : string) (o : Bson.oid) (c : list (item Service))
    (e : item Service) :
  find_one (named_service n) c = Some e ->
  exists e', find_one (named_service n) (update_by_id o set_haircut c) = Some e'
             /\ item_id e' = item_id e.
Proof.
  unfold find_one. induction c as [|d c IH]; cbn; [discriminate|].
  destruct (has_id o d); cbn.
  - unfold named_service at 1 3; cbn [item_fields set_haircut service_name].
    fold (named_service n d). destruct (named_service n d).
    + intros H. injection H as <-. eexists. split; reflexivity.
    + intros H. exists e. split; [exact H|reflexivity].
  - destruct (named_service n d); [intros H; exists e; now split|exact IH].
Qed.

Lemma find_named_after_update_unique (n : string) (c : list (item Service))
    (e : item Service) :
  NoDup (map item_id c) ->
  find_one (named_service n) c = Some e ->
  find_one (named_service n) (update_by_id (item_id e) set_haircut c)
  = Some (mkitem (item_id e) (set_haircut (item_fields e))).
Proof.
  unfold find_one. induction c as [|d c IH]; cbn; [discriminate|].
  intros Hnd. inversion Hnd as [|? ? Hd Hrest]; subst.
  destruct (named_service n d) eqn:En.
  - intros H. injection H as <-. unfold has_id. rewrite N.eqb_refl. cbn.
    unfold named_service in *; cbn. now rewrite En.
  - intros H. destruct (has_id (item_id e) d) eqn:Eh.
    + exfalso. apply Hd. apply has_id_true in Eh. rewrite Eh.
      apply find_some in H. apply in_map. tauto.
    + cbn. rewrite En. now apply IH.
Qed.

(** What the turn for "Haircut" leaves behind: a first service of that name,
    on which the seed's update has nothing left to change. *)
Lemma haircut_turn (new_id : string -> Bson.oid) (c c1 : list (item Service)) :
  seed_service new_id c (mkservice "Haircut" None 30 18%float) = Some c1 ->
  exists e, find_one (named_service "Haircut") c1 = Some e
            /\ update_by_id (item_id e) set_haircut c1 = c1.
Proof.
  unfold seed_service. cbn [service_name duration_min].
  change (("Haircut" =? "Haircut")%string) with true. cbv iota.
  destruct (find_one (named_service "Haircut") c) as [e0|] eqn:E0.
  - intros H. injection H as <-.
    destruct (find_named_after_update "Haircut" (item_id e0) c e0 E0)
      as (e' & He' & Hid).
    exists e'. split; [exact He'|]. rewrite Hid.
    apply update_by_id_twice. exact set_haircut_twice.
  - unfold create_document.
    destruct (existsb (has_id (new_id "Haircut")) c) eqn:Ex; [discriminate|].
    intros H. injection H as <-.
    exists (mkitem (new_id "Haircut") (mkservice "Haircut" None 30 18%float)).
    split.
    + rewrite cat_find_app, E0. reflexivity.
    + cbn [item_id]. induction c as [|d c IH]; cbn.
      * unfold has_id; cbn. now rewrite N.eqb_refl.
      * cbn in Ex. apply orb_false_iff in Ex. destruct Ex as [Ed Ec].
        cbn in E0. unfold find_one in E0. cbn in E0.
        destruct (named_service "Haircut" d); [discriminate|].
        rewrite Ed. f_equal. now apply IH.
Qed.

(** A turn for any other default service appends at most one document and
    leaves a service of that name behind. *)
Lemma other_turn (new_id : string -> Bson.oid) (c c' : list (item Service))
    (s : Service) :
  (service_name s =? "Haircut")%string = false ->
  seed_service new_id c s = Some c' ->
  (exists extra, c' = c ++ extra)
  /\ exists e, find_one (named_service (service_name s)) c' = Some e.
Proof.
  intros Hs. unfold seed_service. rewrite Hs.
  destruct (find_one (named_service (service_name s)) c) as [e0|] eqn:E0.
  - intros H. injection H as <-. split; [exists []; now rewrite app_nil_r|eauto].
  - unfold create_document.
    destruct (existsb (has_id (new_id (service_name s))) c); [discriminate|].
    intros H. injection H as <-. split; [eauto|].
    rewrite cat_find_app, E0. unfold find_one; cbn.
    unfold named_service; cbn. rewrite String.eqb_refl. eauto.
Qed.

Lemma other_turn_again (new_id : string -> Bson.oid) (c : list (item Service))
    (s : Service) (e : item Service) :
  (service_name s =? "Haircut")%string = false ->
  find_one (named_service (service_name s)) c = Some e ->
  seed_service new_id c s = Some c.
Proof. intros Hs He. unfold seed_service. now rewrite He, Hs. Qed.

Lemma haircut_turn_again (new_id : string -> Bson.oid) (c : list (item Service))
    (e : item Service) :
  find_one (named_service "Haircut") c = Some e ->
  update_by_id (item_id e) set_haircut c = c ->
  seed_service new_id c (mkservice "Haircut" None 30 18%float) = Some c.
Proof.
  intros He Hu. unfold seed_service. cbn [service_name duration_min]. rewrite He.
  change (("Haircut" =? "Haircut")%string) with true. cbv iota.
  f_equal. exact Hu.
Qed.

Lemma found_stays {A : Type} (q : item A -> bool) (c extra : list (item A))
    (e : item A) :
  find_one q c = Some e -> find_one q (c ++ extra) = Some e.
Proof. intros H. now rewrite cat_find_app, H. Qed.

(** The three turns over the default services, taken apart. *)
Lemma seed_services_turns (new_id : string -> Bson.oid)
    (c c3 : list (item Service)) :
  for_each (seed_service new_id) default_services c = Some c3 ->
  exists c1 extra,
    seed_service new_id c (mkservice "Haircut" None 30 18%float) = Some c1
    /\ c3 = c1 ++ extra
    /\ (exists e, find_one (named_service "Beard Trim") c3 = Some e)
    /\ (exists e, find_one (named_service "Haircut + Beard") c3 = Some e).
Proof.
  unfold default_services. cbn [for_each].
  destruct (seed_service new_id c _) as [c1|] eqn:E1; [|discriminate].
  destruct (seed_service new_id c1 _) as [c2|] eqn:E2; [|discriminate].
  destruct (seed_service new_id c2 _) as [c3'|] eqn:E3; [|discriminate].
  intros H. injection H as <-.
  destruct (other_turn new_id c1 c2 (mkservice "Beard Trim" None 15 15%float)
              eq_refl E2) as [[x2 H2] [e2 F2]].
  destruct (other_turn new_id c2 c3' (mkservice "Haircut + Beard" None 45 35%float)
              eq_refl E3) as [[x3 H3] [e3 F3]].
  exists c1, (x2 ++ x3). split; [reflexivity|]. split; [|split].
  - now rewrite H3, H2, app_assoc.
  - exists e2. rewrite H3. now apply found_stays.
  - exists e3. exact F3.
Qed.

End SeedServices.

Section Seed.

Import Catalog.
Local Open Scope list_scope.

Lemma default_barbers_distinct : NoDup default_barbers.
Proof.
  unfold default_barbers.
  repeat constructor; cbn; intros H;
    repeat (destruct H as [H|H]; [discriminate H|]); exact H.
Qed.

Lemma seed_defaults_parts (new_id : string -> Bson.oid) (db db' : database) :
  seed_defaults new_id db = Some db' ->
  for_each (seed_barber new_id) default_barbers (barber db) = Some (barber db')
  /\ for_each (seed_service new_id) default_services (service db)
     = Some (service db').
Proof.
  unfold seed_defaults.
  destruct (for_each (seed_barber new_id) _ _) as [b|]; [|discriminate].
  destruct (for_each (seed_service new_id) _ _) as [s|]; [|discriminate].
  intros H. injection H as <-. split; reflexivity.
Qed.

Lemma default_barbers_present_after_seed (new_id : string -> Bson.oid)
    (db db' : database) :
  seed_defaults new_id db = Some db' ->
  forall n, In n default_barbers -> missing_barber (barber db') n = false.
Proof.
  intros H. apply seed_defaults_parts in H. destruct H as [Hb _].
  rewrite (seed_barbers_shape new_id default_barbers _ _
             default_barbers_distinct Hb).
  intros n Hn. now apply seeded_names_present.
Qed.

(** X14. The seed creates no duplicate barber: after a seed that completes,
    the barber collection is the one before followed by one document (name,
    bio "Pro barber") for each default name that no stored barber had, in
    the order of the defaults; every default name is then present. *)
Theorem seed_adds_missing_barbers :
  forall (new_id : string -> Bson.oid) (db db' : database),
    seed_defaults new_id db = Some db' ->
    barber db'
    = barber db
      ++ map (seeded_barber new_id)
           (filter (missing_barber (barber db)) default_barbers)
    /\ (forall n, In n default_barbers -> missing_barber (barber db') n = false).
Proof.
  intros new_id db db' H. apply seed_defaults_parts in H. destruct H as [Hb _].
  pose proof (seed_barbers_shape new_id default_barbers _ _
                default_barbers_distinct Hb) as E.
  split; [exact E|]. intros n Hn. rewrite E.
  now apply seeded_names_present.
Qed.

Lemma seed_adds_missing_barbers_witness :
  seed_defaults (fun n => N.of_nat (String.length n))
    (mkdb [mkitem 1%N (mkbarber "Lisa Shear" None None)] [])
  = Some (mkdb [mkitem 1%N (mkbarber "Lisa Shear" None None);
                mkitem 9%N (mkbarber "John Fade" None (Some "Pro barber"));
                mkitem 11%N (mkbarber "Mike Lineup" None (Some "Pro barber"))]
            [mkitem 7%N (mkservice "Haircut" None 30 18%float);
             mkitem 10%N (mkservice "Beard Trim" None 15 15%float);
             mkitem 15%N (mkservice "Haircut + Beard" None 45 35%float)])
  /\ missing_barber
       [mkitem 1%N (mkbarber "Lisa Shear" None None);
        mkitem 9%N (mkbarber "John Fade" None (Some "Pro barber"));
        mkitem 11%N (mkbarber "Mike Lineup" None (Some "Pro barber"))]
       "John Fade" = false.
Proof.
  assert (H : seed_defaults (fun n => N.of_nat (String.length n))
                (mkdb [mkitem 1%N (mkbarber "Lisa Shear" None None)] [])
              = Some (mkdb [mkitem 1%N (mkbarber "Lisa Shear" None None);
                            mkitem 9%N (mkbarber "John Fade" None (Some "Pro barber"));
                            mkitem 11%N (mkbarber "Mike Lineup" None (Some "Pro barber"))]
                        [mkitem 7%N (mkservice "Haircut" None 30 18%float);
                         mkitem 10%N (mkservice "Beard Trim" None 15 15%float);
                         mkitem 15%N (mkservice "Haircut + Beard" None 45 35%float)]))
    by reflexivity.
  split; [exact H|].
  exact (proj2 (seed_adds_missing_barbers _ _ _ H) "John Fade" (or_introl eq_refl)).
Defined.

(** X15. The seed is idempotent: seeding again a database that a completed
    seed left behind completes too, whatever identities the driver would
    offer, and changes nothing. *)
Theorem seed_idempotent :
  forall (new_id other_id : string -> Bson.oid) (db db' : database),
    seed_defaults new_id db = Some db' ->
    seed_defaults other_id db' = Some db'.
Proof.
  intros new_id other_id db db' H.
  pose proof (default_barbers_present_after_seed new_id db db' H) as Hpresent.
  apply seed_defaults_parts in H. destruct H as [_ Hs].
  destruct (seed_services_turns new_id _ _ Hs)
    as (c1 & extra & H1 & H3 & [e2 F2] & [e3 F3]).
  destruct (haircut_turn new_id _ _ H1) as (e & Fe & Ue).
  unfold seed_defaults.
  rewrite (seed_barbers_again default_barbers (barber db') other_id Hpresent).
  unfold default_services. cbn [for_each].
  rewrite (haircut_turn_again other_id (service db') e).
  - rewrite (other_turn_again other_id (service db')
               (mkservice "Beard Trim" None 15 15%float) e2 eq_refl F2).
    rewrite (other_turn_again other_id (service db')
               (mkservice "Haircut + Beard" None 45 35%float) e3 eq_refl F3).
    now destruct db'.
  - rewrite H3. now apply found_stays.
  - rewrite H3, update_by_id_app, Ue; [reflexivity|].
    exact (found_has_id _ _ _ Fe).
Qed.

Lemma seed_idempotent_witness :
  seed_defaults (fun n => N.of_nat (String.length n))
    (mkdb [] [mkitem 1%N (mkservice "Haircut" (Some "Classic") 20 25%float)])
  = Some (mkdb [mkitem 9%N (mkbarber "John Fade" None (Some "Pro barber"));
                mkitem 10%N (mkbarber "Lisa Shear" None (Some "Pro barber"));
                mkitem 11%N (mkbarber "Mike Lineup" None (Some "Pro barber"))]
            [mkitem 1%N (mkservice "Haircut" (Some "Classic") 30 18%float);
             mkitem 10%N (mkservice "Beard Trim" None 15 15%float);
             mkitem 15%N (mkservice "Haircut + Beard" None 45 35%float)])
  /\ seed_defaults (fun _ => 0%N)
       (mkdb [mkitem 9%N (mkbarber "John Fade" None (Some "Pro barber"));
              mkitem 10%N (mkbarber "Lisa Shear" None (Some "Pro barber"));
              mkitem 11%N (mkbarber "Mike Lineup" None (Some "Pro barber"))]
          [mkitem 1%N (mkservice "Haircut" (Some "Classic") 30 18%float);
           mkitem 10%N (mkservice "Beard Trim" None 15 15%float);
           mkitem 15%N (mkservice "Haircut + Beard" None 45 35%float)])
     = Some (mkdb [mkitem 9%N (mkbarber "John Fade" None (Some "Pro barber"));
                   mkitem 10%N (mkbarber "Lisa Shear" None (Some "Pro barber"));
                   mkitem 11%N (mkbarber "Mike Lineup" None (Some "Pro barber"))]
               [mkitem 1%N (mkservice "Haircut" (Some "Classic") 30 18%float);
                mkitem 10%N (mkservice "Beard Trim" None 15 15%float);
                mkitem 15%N (mkservice "Haircut + Beard" None 45 35%float)]).
Proof.
  assert (H : seed_defaults (fun n => N.of_nat (String.length n))
                (mkdb [] [mkitem 1%N (mkservice "Haircut" (Some "Classic") 20 25%float)])
              = Some (mkdb [mkitem 9%N (mkbarber "John Fade" None (Some "Pro barber"));
                            mkitem 10%N (mkbarber "Lisa Shear" None (Some "Pro barber"));
                            mkitem 11%N (mkbarber "Mike Lineup" None (Some "Pro barber"))]
                        [mkitem 1%N (mkservice "Haircut" (Some "Classic") 30 18%float);
                         mkitem 10%N (mkservice "Beard Trim" None 15 15%float);
                         mkitem 15%N (mkservice "Haircut + Beard" None 45 35%float)]))
    by reflexivity.
  split; [exact H|].
  exact (seed_idempotent _ (fun _ => 0%N) _ _ H).
Defined.

(** X16. The "Haircut" service converges: after a seed that completes on a
    service collection with unique identities, the first service named
    "Haircut" has price 18.0 and a duration of 30 minutes, whatever was
    stored before; its name and description are untouched by the update. *)
Theorem seed_fixes_haircut :
  forall (new_id : string -> Bson.oid) (db db' : database),
    NoDup (map item_id (service db)) ->
    seed_defaults new_id db = Some db' ->
    exists e,
      find_one (named_service "Haircut") (service db') = Some e
      /\ price (item_fields e) = 18%float
      /\ duration_min (item_fields e) = 30
      /\ (forall e0, find_one (named_service "Haircut") (service db) = Some e0 ->
                     item_id e = item_id e0
                     /\ description (item_fields e) = description (item_fields e0)).
Proof.
  intros new_id db db' Hnd H. apply seed_defaults_parts in H. destruct H as [_ Hs].
  destruct (seed_services_turns new_id _ _ Hs) as (c1 & extra & H1 & H3 & _).
  rewrite H3. unfold seed_service in H1. cbn [service_name duration_min] in H1.
  change (("Haircut" =? "Haircut")%string) with true in H1. cbv iota in H1.
  destruct (find_one (named_service "Haircut") (service db)) as [e0|] eqn:E0.
  - injection H1 as <-.
    exists (mkitem (item_id e0) (set_haircut (item_fields e0))).
    split; [apply found_stays; now apply find_named_after_update_unique|].
    split; [reflexivity|]. split; [reflexivity|].
    intros e1 He1. injection He1 as <-. split; reflexivity.
  - unfold create_document in H1.
    destruct (existsb _ (service db)); [discriminate H1|]. injection H1 as <-.
    exists (mkitem (new_id "Haircut") (mkservice "Haircut" None 30 18%float)).
    split; [apply found_stays; rewrite cat_find_app, E0; reflexivity|].
    split; [reflexivity|]. split; [reflexivity|].
    intros e1 He1. discriminate He1.
Qed.

Lemma seed_fixes_haircut_witness :
  NoDup (map item_id [mkitem 1%N (mkservice "Haircut" (Some "Classic") 20 25%float)])
  /\ exists e,
       find_one (named_service "Haircut")
         [mkitem 1%N (mkservice "Haircut" (Some "Classic") 30 18%float);
          mkitem 10%N (mkservice "Beard Trim" None 15 15%float);
          mkitem 15%N (mkservice "Haircut + Beard" None 45 35%float)] = Some e
       /\ price (item_fields e) = 18%float
       /\ duration_min (item_fields e) = 30.
Proof.
  assert (Hn : NoDup (map item_id
                        [mkitem 1%N (mkservice "Haircut" (Some "Classic") 20 25%float)])).
  { cbn. constructor; [intros []|constructor]. }
  split; [exact Hn|].
  destruct (seed_fixes_haircut (fun n => N.of_nat (String.length n))
              (mkdb [] [mkitem 1%N (mkservice "Haircut" (Some "Classic") 20 25%float)])
              (mkdb [mkitem 9%N (mkbarber "John Fade" None (Some "Pro barber"));
                     mkitem 10%N (mkbarber "Lisa Shear" None (Some "Pro barber"));
                     mkitem 11%N (mkbarber "Mike Lineup" None (Some "Pro barber"))]
                 [mkitem 1%N (mkservice "Haircut" (Some "Classic") 30 18%float);
                  mkitem 10%N (mkservice "Beard Trim" None 15 15%float);
                  mkitem 15%N (mkservice "Haircut + Beard" None 45 35%float)])
              Hn eq_refl) as (e & H1 & H2 & H3 & _).
  exists e. repeat split; assumption.
Defined.

Lemma ids_after_update {A : Type} (o o' : Bson.oid) (f : A -> A) (c : list (item A)) :
  existsb (has_id o) (update_by_id o' f c) = existsb (has_id o) c.
Proof.
  induction c as [|d c IH]; cbn; [reflexivity|].
  destruct (has_id o' d); cbn; [reflexivity|now rewrite IH].
Qed.

Lemma seed_barbers_complete (new_id : string -> Bson.oid) (names : list string) :
  forall c,
    NoDup (map new_id names) ->
    (forall n, In n names -> existsb (has_id (new_id n)) c = false) ->
    exists c', for_each (seed_barber new_id) names c = Some c'.
Proof.
  induction names as [|n names IH]; intros c Hnd Hfresh; cbn; [eauto|].
  cbn in Hnd. inversion Hnd as [|? ? Hn Hrest]; subst.
  unfold seed_barber at 1.
  destruct (count_documents (named_barber n) c =? 0).
  - unfold create_document. rewrite (Hfresh n (or_introl eq_refl)).
    apply IH; [exact Hrest|]. intros x Hx. rewrite existsb_app. cbn.
    rewrite (Hfresh x (or_intror Hx)). cbn. rewrite orb_false_r.
    unfold has_id; cbn. apply N.eqb_neq. intros E. apply Hn. rewrite E.
    now apply in_map.
  - apply IH; [exact Hrest|]. intros x Hx. apply Hfresh. now right.
Qed.

Lemma seed_service_complete (new_id : string -> Bson.oid) (c : list (item Service))
    (s : Service) :
  existsb (has_id (new_id (service_name s))) c = false ->
  exists c', seed_service new_id c s = Some c'
             /\ forall o, o <> new_id (service_name s) ->
                          existsb (has_id o) c' = existsb (has_id o) c.
Proof.
  intros Hfresh. unfold seed_service.
  destruct (find_one (named_service (service_name s)) c) as [e|].
  - destruct (service_name s =? "Haircut")%string.
    + eexists. split; [reflexivity|]. intros o _. apply ids_after_update.
    + eexists. split; [reflexivity|]. reflexivity.
  - unfold create_document. rewrite Hfresh. eexists. split; [reflexivity|].
    intros o Ho. rewrite existsb_app. cbn. rewrite orb_false_r.
    unfold has_id at 2; cbn.
    apply not_eq_sym in Ho. apply N.eqb_neq in Ho. rewrite Ho. apply orb_false_r.
Qed.

Lemma seed_services_complete (new_id : string -> Bson.oid) (ss : list Service) :
  forall c,
    NoDup (map (fun s => new_id (service_name s)) ss) ->
    (forall s, In s ss -> existsb (has_id (new_id (service_name s))) c = false) ->
    exists c', for_each (seed_service new_id) ss c = Some c'.
Proof.
  induction ss as [|s ss IH]; intros c Hnd Hfresh; cbn; [eauto|].
  cbn in Hnd. inversion Hnd as [|? ? Hs Hrest]; subst.
  destruct (seed_service_complete new_id c s (Hfresh s (or_introl eq_refl)))
    as (c1 & E1 & Hids).
  rewrite E1. apply IH; [exact Hrest|]. intros x Hx.
  rewrite Hids; [apply Hfresh; now right|].
  intros E. apply Hs. rewrite <- E.
  now apply (in_map (fun s => new_id (service_name s))).
Qed.

(** X17. The seed completes: when the identities the driver offers for the
    defaults are new to the collections and distinct from each other, no
    exception leaves the startup handler. *)
Theorem seed_completes :
  forall (new_id : string -> Bson.oid) (db : database),
    NoDup (map new_id default_barbers) ->
    NoDup (map (fun s => new_id (service_name s)) default_services) ->
    (forall n, In n default_barbers ->
               existsb (has_id (new_id n)) (barber db) = false) ->
    (forall s, In s default_services ->
               existsb (has_id (new_id (service_name s))) (service db) = false) ->
    exists db', seed_defaults new_id db = Some db'.
Proof.
  intros new_id db Hnb Hns Hfb Hfs. unfold seed_defaults.
  destruct (seed_barbers_complete new_id default_barbers (barber db) Hnb Hfb)
    as [b Hb].
  destruct (seed_services_complete new_id default_services (service db) Hns Hfs)
    as [s Hs].
  rewrite Hb, Hs. eauto.
Qed.

Lemma seed_completes_witness :
  exists db', seed_defaults (fun n => N.of_nat (String.length n)) (mkdb [] [])
              = Some db'.
Proof.
  apply seed_completes.
  - cbn. repeat constructor; cbn; intros H;
      repeat (destruct H as [H|H]; [discriminate H|]); exact H.
  - cbn. repeat constructor; cbn; intros H;
      repeat (destruct H as [H|H]; [discriminate H|]); exact H.
  - intros n _. reflexivity.
  - intros s _. reflexivity.
Defined.

End Seed.

(** * What create and cancel never undo *)

Section Monotone.

Import Store Main Wording Booking.
Local Open Scope list_scope.

Lemma later_state_refl (d : document) : later_state d d.
Proof. split; [apply only_status_changed_refl|auto]. Qed.

Lemma later_state_trans (a b c : document) :
  later_state a b -> later_state b c -> later_state a c.
Proof.
  intros [H1 S1] [H2 S2]. split; [|auto].
  unfold only_status_changed in *.
  destruct H1 as (A0 & A1 & A2 & A3 & A4 & A5 & A6 & A7 & A8).
  destruct H2 as (B0 & B1 & B2 & B3 & B4 & B5 & B6 & B7 & B8).
  repeat split; congruence.
Qed.

Lemma Forall2_later_refl (db : collection) : Forall2 later_state db db.
Proof. induction db; constructor; auto using later_state_refl. Qed.

Lemma Forall2_later_trans (l1 : collection) :
  forall l2 l3, Forall2 later_state l1 l2 -> Forall2 later_state l2 l3 ->
                Forall2 later_state l1 l3.
Proof.
  induction l1 as [|a l1 IH]; intros l2 l3 H12 H23.
  - inversion H12; subst. inversion H23; subst. constructor.
  - inversion H12 as [|? b ? l2' Hab H12']; subst.
    inversion H23 as [|? c ? l3' Hbc H23']; subst.
    constructor; [eapply later_state_trans; eauto|eapply IH; eauto].
Qed.

Lemma step_later (db : collection) (r : request) :
  exists db1 extra, step db r = db1 ++ extra /\ Forall2 later_state db db1.
Proof.
  destruct r as [body new_id|appointment_id now]; cbn [step].
  - rewrite create_appointment_snd.
    destruct (find_one _ db);
      [exists db, []; rewrite app_nil_r; auto using Forall2_later_refl|].
    destruct (existsb _ db).
    + exists db, []. rewrite app_nil_r. auto using Forall2_later_refl.
    + exists db, [mkdoc new_id (booked body)]. auto using Forall2_later_refl.
  - exists (snd (cancel_appointment appointment_id now db)), [].
    rewrite app_nil_r. split; [reflexivity|].
    destruct (Bson.ObjectId appointment_id) as [oid|] eqn:Hid;
      [|rewrite cancel_appointment_snd, Hid; apply Forall2_later_refl].
    destruct (find_one (by_id oid) db) as [d|] eqn:Hd;
      [|rewrite (cancel_store_absent _ now db oid Hid Hd); apply Forall2_later_refl].
    destruct (cancel_store appointment_id now db oid d Hid Hd)
      as (pre & post & Hdb & _ & Hsnd).
    rewrite Hsnd. rewrite Hdb at 1.
    apply Forall2_app; [apply Forall2_later_refl|].
    constructor; [|apply Forall2_later_refl].
    assert (Ho : _id d = oid) by (apply find_some in Hd; now apply by_id_true).
    split; [|reflexivity].
    unfold only_status_changed. cbn. repeat split. now rewrite Ho.
Qed.

(** X18. Nothing is undone: after any run of create and cancel requests
    every document that was stored is still there, at its position, with the
    same identity, customer and schedule, and is still canceled if it was
    canceled; the run only appends documents after them. *)
Theorem run_never_undoes :
  forall (rs : list request) (db : collection),
    exists db1 extra,
      run rs db = db1 ++ extra /\ Forall2 later_state db db1.
Proof.
  unfold run. induction rs as [|r rs IH]; intros db; cbn [fold_left].
  - exists db, []. rewrite app_nil_r. auto using Forall2_later_refl.
  - destruct (step_later db r) as (db1 & extra1 & E1 & H1).
    destruct (IH (step db r)) as (db2 & extra2 & E2 & H2).
    rewrite E1 in H2. apply Forall2_app_inv_l in H2.
    destruct H2 as (l1 & l2 & Hl1 & Hl2 & ->).
    exists l1, (l2 ++ extra2). split; [now rewrite E2, app_assoc|].
    eapply Forall2_later_trans; eauto.
Qed.

End Monotone.
